(** * CodeSampleGen: a shallow embedding of [CodeSampleGen.py]

    The script walks a repository, extracts Python functions with
    tree-sitter, asks a GGUF model for question/answer pairs about each
    function, scans the completion line by line for [Question:] /
    [Answer:] markers and writes the records as JSON lines.

    Python values are modelled as the script uses them: a [str] is a list
    of Unicode code points, [bytes] a list of octets, a dict with a fixed
    key set a record, an exception a value carried by a sum, and the
    effects of the script (file system, standard output, calls into the
    model) are threaded through a state-and-exception monad. *)

From Stdlib Require Import List NArith ZArith QArith String Ascii Bool Lia.
Import ListNotations.
Close Scope Q_scope.

Set Implicit Arguments.
Set Warnings "-register-all".

(** ** Python strings *)

Definition codepoint := N.
Definition str := list codepoint.
(** A [bytes] value: octets, each below 256. *)
Definition bytes := list N.

(** An ASCII literal of the source, as a [str]. *)
Definition py (s : string) : str := map N_of_ascii (list_ascii_of_string s).

Definition LF : codepoint := 10%N.

Fixpoint str_eqb (a b : str) : bool :=
  match a, b with
  | [], [] => true
  | x :: a', y :: b' => N.eqb x y && str_eqb a' b'
  | _, _ => false
  end.

(** [s.startswith(prefix)] *)
Fixpoint startswith (s prefix : str) {struct prefix} : bool :=
  match prefix, s with
  | [], _ => true
  | p :: prefix', c :: s' => N.eqb c p && startswith s' prefix'
  | _ :: _, [] => false
  end.

(** [s.endswith(suffix)] *)
Definition endswith (s suffix : str) : bool :=
  startswith (rev s) (rev suffix).

(** [ch.isspace()]: CPython's [_PyUnicode_IsWhitespace] table. *)
Definition isspace (c : codepoint) : bool :=
  ((9 <=? c) && (c <=? 13) || (28 <=? c) && (c <=? 32)
   || (c =? 133) || (c =? 160) || (c =? 5760)
   || (8192 <=? c) && (c <=? 8202)
   || (c =? 8232) || (c =? 8233) || (c =? 8239) || (c =? 8287)
   || (c =? 12288))%N.

Fixpoint lstrip (s : str) : str :=
  match s with
  | [] => []
  | c :: s' => if isspace c then lstrip s' else s
  end.

Definition rstrip (s : str) : str := rev (lstrip (rev s)).

(** [s.strip()] *)
Definition strip (s : str) : str := rstrip (lstrip s).

(** [s.split(sep)] for a separator of one character: the pieces between
    the separators, in order; never the empty list. *)
Fixpoint split (sep : codepoint) (s : str) : list str :=
  match s with
  | [] => [[]]
  | c :: s' =>
      if N.eqb c sep then [] :: split sep s'
      else match split sep s' with
           | piece :: pieces => (c :: piece) :: pieces
           | [] => [[c]]
           end
  end.

(** [s.replace(old, new)] scans left to right and replaces every
    occurrence that does not overlap an earlier one.  [skip] counts the
    characters of the occurrence just replaced that are still to be
    dropped. *)
Fixpoint replace_from (old new : str) (skip : nat) (s : str) : str :=
  match s with
  | [] => []
  | c :: s' =>
      match skip with
      | S k => replace_from old new k s'
      | O =>
          if startswith s old
          then new ++ replace_from old new (List.length old - 1) s'
          else c :: replace_from old new 0 s'
      end
  end.

Definition replace (s old new : str) : str :=
  match old with
  | [] => new ++ flat_map (fun c => c :: new) s
  | _ :: _ => replace_from old new 0 s
  end.

(** [s[a:b]] for non-negative indices: clamped at the end of [s], empty
    when [b <= a]. *)
Definition slice {A} (s : list A) (a b : nat) : list A :=
  firstn (b - a) (skipn a s).

(** [sep.join(parts)] *)
Fixpoint join (sep : str) (parts : list str) : str :=
  match parts with
  | [] => []
  | [p] => p
  | p :: rest => p ++ sep ++ join sep rest
  end.

(** ** The records of the dataset *)

(** One entry of [code_files] (keys [path], [content], [repo]). *)
Record CodeFile := {
  path : str;
  content : str;
  repo : str
}.

(** One entry of [qa_pairs]. *)
Record QARecord := {
  question : str;
  answer : str;
  code_snippet : str;
  reasoning : str;
  file : str;
  qa_repo : str
}.

(** ** The response scan (lines 114-130 of [generate_qa_pairs]) *)

Definition QUESTION : str := py "Question:".
Definition ANSWER : str := py "Answer:".

(** Truth value of [current_q] in [if current_q:]: [None] and the empty
    string are false. *)
Definition truthy (current_q : option str) : bool :=
  match current_q with
  | Some (_ :: _) => true
  | _ => false
  end.

Definition pending (current_q : option str) : str :=
  match current_q with Some q => q | None => [] end.

Section Scan.

(** The fields of a record that do not come from the completion. *)
Variables (func_code func_name : str) (f : CodeFile).

Definition mk_record (q a : str) : QARecord :=
  {| question := q;
     answer := a;
     code_snippet := func_code;
     reasoning := py "Generated from function " ++ func_name ++ py " in "
                    ++ path f ++ py " using StarCoder GGUF.";
     file := path f;
     qa_repo := repo f |}.

(** The loop variables: [current_q] and the list [qa_pairs]. *)
Definition scan_state := (option str * list QARecord)%type.

(** The body of [for line in lines]. *)
Definition scan_line (st : scan_state) (line : str) : scan_state :=
  let '(current_q, qa_pairs) := st in
  if startswith line QUESTION then
    (Some (strip (replace line QUESTION [])), qa_pairs)
  else if startswith line ANSWER then
    if truthy current_q then
      let answer := strip (replace line ANSWER []) in
      (None, qa_pairs ++ [mk_record (pending current_q) answer])
    else st
  else st.

(** [lines = response.split('\n'); current_q = None; for line in lines: ...] *)
Definition scan_response (response : str) (qa_pairs : list QARecord)
  : list QARecord :=
  snd (fold_left scan_line (split LF response) (None, qa_pairs)).

(** The same loop body as a transition relation, one rule per branch
    of the [if]/[elif] chain. *)
Inductive line_step : scan_state -> str -> scan_state -> Prop :=
| step_question : forall current_q qa_pairs line,
    startswith line QUESTION = true ->
    line_step (current_q, qa_pairs) line
              (Some (strip (replace line QUESTION [])), qa_pairs)
| step_answer : forall q qa_pairs line,
    startswith line QUESTION = false ->
    startswith line ANSWER = true ->
    q <> [] ->
    line_step (Some q, qa_pairs) line
              (None, qa_pairs ++ [mk_record q (strip (replace line ANSWER []))])
| step_orphan_answer : forall current_q qa_pairs line,
    startswith line QUESTION = false ->
    startswith line ANSWER = true ->
    truthy current_q = false ->
    line_step (current_q, qa_pairs) line (current_q, qa_pairs)
| step_other : forall current_q qa_pairs line,
    startswith line QUESTION = false ->
    startswith line ANSWER = false ->
    line_step (current_q, qa_pairs) line (current_q, qa_pairs).

Inductive lines_run : scan_state -> list str -> scan_state -> Prop :=
| run_done : forall st, lines_run st [] st
| run_line : forall st line st' rest st'',
    line_step st line st' ->
    lines_run st' rest st'' ->
    lines_run st (line :: rest) st''.

(** A run of the scan over a completion text, from [current_q = None]. *)
Definition scans (response : str) (qa_pairs emitted : list QARecord) : Prop :=
  exists current_q,
    lines_run (None, qa_pairs) (split LF response) (current_q, emitted).

End Scan.

(** ** Exceptions

    A value of [exn] is an instance of a subclass of Python's
    [Exception], that is, anything an [except Exception] clause catches;
    [message] is what [str(e)] gives.  Interrupts and interpreter exit,
    which are not [Exception]s, are outside the model. *)

Inductive exn_class :=
| FileNotFoundError | FileExistsError | NotADirectoryError | IsADirectoryError
| PermissionError | OSError
| ValueError | TypeError | RuntimeError | NameError | AttributeError
| IndexError
| UnicodeEncodeError | UnicodeDecodeError.

Record exn := { class : exn_class; message : str }.

Definition result (A : Type) : Type := (exn + A)%type.

(** ** UTF-8 ([bytes(s, "utf-8")] and [b.decode("utf-8")]) *)

Definition cont (c : N) (shift : N) : N :=
  N.lor 128 (N.land (N.shiftr c shift) 63).

Definition utf8_char (c : codepoint) : option bytes :=
  if (c <? 128)%N then Some [c]
  else if (c <? 2048)%N then Some [N.lor 192 (N.shiftr c 6); cont c 0]
  else if (c <? 65536)%N then
    if ((55296 <=? c) && (c <=? 57343))%N then None
    else Some [N.lor 224 (N.shiftr c 12); cont c 6; cont c 0]
  else if (c <? 1114112)%N then
    Some [N.lor 240 (N.shiftr c 18); cont c 12; cont c 6; cont c 0]
  else None.

Fixpoint utf8_encode (s : str) : result bytes :=
  match s with
  | [] => inr []
  | c :: s' =>
      match utf8_char c, utf8_encode s' with
      | Some bs, inr rest => inr (bs ++ rest)
      | None, _ =>
          inl {| class := UnicodeEncodeError;
                 message := py "'utf-8' codec can't encode character: surrogates not allowed" |}
      | _, inl e => inl e
      end
  end.

Definition is_cont (b : N) : bool := ((128 <=? b) && (b <? 192))%N.
Definition low6 (b : N) : N := N.land b 63.

Definition invalid_utf8 : exn :=
  {| class := UnicodeDecodeError;
     message := py "'utf-8' codec can't decode byte: invalid start or continuation byte" |}.

Definition push (c : codepoint) (r : result str) : result str :=
  match r with inr s => inr (c :: s) | inl e => inl e end.

Fixpoint utf8_decode (bs : bytes) : result str :=
  match bs with
  | [] => inr []
  | b0 :: r0 =>
      if (b0 <? 128)%N then push b0 (utf8_decode r0)
      else if ((194 <=? b0) && (b0 <? 224))%N then
        match r0 with
        | b1 :: r1 =>
            if is_cont b1
            then push (N.lor (N.shiftl (N.land b0 31) 6) (low6 b1)) (utf8_decode r1)
            else inl invalid_utf8
        | _ => inl invalid_utf8
        end
      else if ((224 <=? b0) && (b0 <? 240))%N then
        match r0 with
        | b1 :: b2 :: r2 =>
            let c := N.lor (N.shiftl (N.land b0 15) 12)
                       (N.lor (N.shiftl (low6 b1) 6) (low6 b2)) in
            if (is_cont b1 && is_cont b2 && (2048 <=? c)
                && negb ((55296 <=? c) && (c <=? 57343)))%N
            then push c (utf8_decode r2)
            else inl invalid_utf8
        | _ => inl invalid_utf8
        end
      else if ((240 <=? b0) && (b0 <? 245))%N then
        match r0 with
        | b1 :: b2 :: b3 :: r3 =>
            let c := N.lor (N.shiftl (N.land b0 7) 18)
                       (N.lor (N.shiftl (low6 b1) 12)
                          (N.lor (N.shiftl (low6 b2) 6) (low6 b3))) in
            if (is_cont b1 && is_cont b2 && is_cont b3
                && (65536 <=? c) && (c <? 1114112))%N
            then push c (utf8_decode r3)
            else inl invalid_utf8
        | _ => inl invalid_utf8
        end
      else inl invalid_utf8
  end.

(** ** The state-and-exception monad of the script

    A computation takes the current state and gives back either the
    exception it raised or its value, together with the state it left
    behind: what a statement did before it raised stays done. *)

Definition M (S A : Type) : Type := S -> result A * S.

Definition ret {S A} (a : A) : M S A := fun s => (inr a, s).

Definition bind {S A B} (m : M S A) (k : A -> M S B) : M S B :=
  fun s => match m s with
           | (inl e, s') => (inl e, s')
           | (inr a, s') => k a s'
           end.

Definition raise {S A} (e : exn) : M S A := fun s => (inl e, s).

(** [try: m except Exception as e: h e] *)
Definition try_except {S A} (m : M S A) (h : exn -> M S A) : M S A :=
  fun s => match m s with
           | (inl e, s') => h e s'
           | (inr a, s') => (inr a, s')
           end.

(** A call that may raise and touches no state. *)
Definition pure_call {S A} (r : result A) : M S A := fun s => (r, s).

Declare Scope py_scope.
Delimit Scope py_scope with pyM.
Notation "x <- m ;; k" := (bind m (fun x => k))
  (at level 100, m at next level, right associativity) : py_scope.
Notation "m ;;; k" := (bind m (fun _ => k))
  (at level 100, right associativity) : py_scope.
Open Scope py_scope.

(** [for x in xs: body x] *)
Fixpoint for_each {S A} (xs : list A) (body : A -> M S unit) : M S unit :=
  match xs with
  | [] => ret tt
  | x :: xs' => body x ;;; for_each xs' body
  end.

(** ** tree-sitter, as far as the script uses it

    A syntax node has a type, a byte range in the parsed source and
    children, each possibly under a field name.  The grammar itself is
    not modelled: a [Language] carries the function from source bytes to
    the root node (or to the error the binding raises). *)

Inductive Node :=
  mkNode (type : str) (start_byte end_byte : nat)
         (children : list (option str * Node)).

Definition type (n : Node) : str := let '(mkNode t _ _ _) := n in t.
Definition start_byte (n : Node) : nat := let '(mkNode _ a _ _) := n in a.
Definition end_byte (n : Node) : nat := let '(mkNode _ _ b _) := n in b.
Definition children (n : Node) : list (option str * Node) :=
  let '(mkNode _ _ _ cs) := n in cs.

Record Language := { grammar : bytes -> result Node }.

(** A parser object: it has no language until one is set. *)
Record Parser := { language : option Language }.

Record Tree := { source : bytes; root_node : Node }.

(** A parser as a working [Parser()] makes it, and as a working
    [set_language] leaves it; whether the two calls work is a matter of
    the installed binding (see [Libs]). *)
Definition blank_parser : Parser := {| language := None |}.

Definition with_language (p : Parser) (l : Language) : Parser :=
  {| language := Some l |}.

(** [parser.parse(source)] *)
Definition parse (p : Parser) (src : bytes) : result Tree :=
  match language p with
  | None =>
      inl {| class := ValueError; message := py "Parser has no language" |}
  | Some l =>
      match grammar l src with
      | inl e => inl e
      | inr root => inr {| source := src; root_node := root |}
      end
  end.

(** [node.text]: the bytes of the source the node spans. *)
Definition node_text (t : Tree) (n : Node) : bytes :=
  slice (source t) (start_byte n) (end_byte n).

(** A query pattern [(type field: (...) ... ) @capture]. *)
Inductive pattern :=
  Pat (ptype : str) (fields : list (str * pattern)) (capture : option str).

(** The node and all nodes below it, in document order. *)
Fixpoint descendants (n : Node) : list Node :=
  match n with
  | mkNode _ _ _ cs =>
      n :: (fix below (l : list (option str * Node)) : list Node :=
              match l with
              | [] => []
              | (_, c) :: l' => descendants c ++ below l'
              end) cs
  end.

Definition field_is (name : str) (fld : option str) : bool :=
  match fld with Some g => str_eqb g name | None => false end.

(** The first child under field [name] on which [m] succeeds. *)
Fixpoint first_match {A} (m : Node -> option A) (name : str)
    (cs : list (option str * Node)) : option A :=
  match cs with
  | [] => None
  | (fld, c) :: cs' =>
      if field_is name fld
      then match m c with
           | Some a => Some a
           | None => first_match m name cs'
           end
      else first_match m name cs'
  end.

(** The captures of one match of pattern [p] rooted at node [n], the
    capture of a node before those of its fields. *)
Fixpoint match_pattern (p : pattern) (n : Node) : option (list (Node * str)) :=
  match p with
  | Pat ptype fields capture =>
      if str_eqb (type n) ptype then
        match
          (fix each (fs : list (str * pattern)) : option (list (Node * str)) :=
             match fs with
             | [] => Some []
             | (name, sub) :: fs' =>
                 match first_match (match_pattern sub) name (children n), each fs' with
                 | Some here, Some rest => Some (here ++ rest)
                 | _, _ => None
                 end
             end) fields
        with
        | Some below =>
            Some (match capture with
                  | Some c => (n, c) :: below
                  | None => below
                  end)
        | None => None
        end
      else None
  end.

(** [query.captures(root)]: the captures of every match, in document
    order, each as (node, capture name). *)
Definition captures (query : pattern) (root : Node) : list (Node * str) :=
  flat_map (fun n => match match_pattern query n with
                     | Some cs => cs
                     | None => []
                     end)
           (descendants root).

(** The query of [generate_qa_pairs]:
    [(function_definition name: (identifier) @func_name)]. *)
Definition FUNC_QUERY : pattern :=
  Pat (py "function_definition")
      [(py "name", Pat (py "identifier") [] (Some (py "func_name")))]
      None.

(** ** Global names

    A function body resolves a name that is not one of its locals in the
    namespace of its module, at the time the name is evaluated. *)

Inductive pyobj :=
| PyModule
| PyClass
| PyFunction
| PyStr (s : str)
| PyLanguage (l : Language).

Definition namespace := list (string * pyobj).

Fixpoint lookup (G : namespace) (name : string) : option pyobj :=
  match G with
  | [] => None
  | (k, v) :: G' => if String.eqb k name then Some v else lookup G' name
  end.

Definition load_global (G : namespace) (name : string) : result pyobj :=
  match lookup G name with
  | Some v => inr v
  | None =>
      inl {| class := NameError;
             message := py "name '" ++ py name ++ py "' is not defined" |}
  end.

(** [obj.query(...)]: only a [Language] has the attribute. *)
Definition get_query (obj : pyobj) (p : pattern) : result pattern :=
  match obj with
  | PyLanguage _ => inr p
  | _ =>
      inl {| class := AttributeError;
             message := py "object has no attribute 'query'" |}
  end.

Definition REPO_PATH : str := py "C:/Users/cym/Documents/flask".
Definition OUTPUT_PATH : str := py "C:/Users/cym/Documents/output_data".
Definition FILE_EXTENSION : str := py ".py".
Definition MODEL_PATH : str := py "C:/Users/cym/models/starcoder-q5_K_M.gguf".

(** The names the module binds at its top level: its imports, its four
    constants and its six functions.  [PY_LANGUAGE] is assigned inside
    [initialize_parser] only, so it is a local of that function and not
    among them. *)
Definition module_globals : namespace :=
  [ ("os", PyModule); ("pd", PyModule); ("Path", PyClass);
    ("List", PyClass); ("Dict", PyClass); ("Any", PyClass);
    ("Llama", PyClass); ("Parser", PyClass);
    ("python_language", PyFunction);
    ("REPO_PATH", PyStr REPO_PATH); ("OUTPUT_PATH", PyStr OUTPUT_PATH);
    ("FILE_EXTENSION", PyStr FILE_EXTENSION); ("MODEL_PATH", PyStr MODEL_PATH);
    ("initialize_model", PyFunction); ("initialize_parser", PyFunction);
    ("extract_code", PyFunction); ("generate_qa_pairs", PyFunction);
    ("save_qa_pairs", PyFunction); ("main", PyFunction) ]%string.

(** ** The generation backend

    A call [model(prompt, max_tokens=..., temperature=...)] returns a
    completion with a list of choices, or raises.  Sampling makes the
    answer depend on more than the request, so a loaded model is a
    function of the requests it has served so far and the present one. *)

Record GenerationRequest := {
  prompt : str;
  max_tokens : Z;
  temperature : Q
}.

Record Choice := { text : str }.
Record Completion := { choices : list Choice }.

Definition Llama := list GenerationRequest -> GenerationRequest -> result Completion.

(** [xs[0]] *)
Definition first {A} (xs : list A) : result A :=
  match xs with
  | x :: _ => inr x
  | [] => inl {| class := IndexError; message := py "list index out of range" |}
  end.

(** ** The world of a run: file system, standard output, backend calls *)

(** A path, as its components. *)
Definition fspath := list str.

(** A directory, or a file; [data] is what
    [open(p, "r", encoding="utf-8").read()] gives for the file: its text,
    or the error of opening or decoding it. *)
Inductive entry :=
| Dir
| File (data : result str).

(** The entries in the order the operating system enumerates them. *)
Definition filesystem := list (fspath * entry).

(** Besides the files, the lines printed and the requests served, the
    world fixes two things the platform decides: which relative paths a
    glob pattern selects ([pathlib]'s matching, with the case rules of
    the operating system), and the error, if any, with which the
    operating system refuses to create a directory whose parent exists
    (no permission, a read-only or full device). *)
Record World := {
  fs : filesystem;
  stdout : list str;
  calls : list GenerationRequest;
  glob : str -> fspath -> bool;
  mkdir_denied : fspath -> option exn
}.

Definition with_fs (w : World) (files : filesystem) : World :=
  {| fs := files; stdout := stdout w; calls := calls w;
     glob := glob w; mkdir_denied := mkdir_denied w |}.

Definition with_stdout (w : World) (lines : list str) : World :=
  {| fs := fs w; stdout := lines; calls := calls w;
     glob := glob w; mkdir_denied := mkdir_denied w |}.

Definition with_calls (w : World) (reqs : list GenerationRequest) : World :=
  {| fs := fs w; stdout := stdout w; calls := reqs;
     glob := glob w; mkdir_denied := mkdir_denied w |}.

Definition SLASH : codepoint := 47%N.

Fixpoint fspath_eqb (p q : fspath) : bool :=
  match p, q with
  | [], [] => true
  | a :: p', b :: q' => str_eqb a b && fspath_eqb p' q'
  | _, _ => false
  end.

(** [Path(s)]: the components between the separators; empty components
    and [.] are dropped.  All paths are read from one starting directory:
    the model has no separate root. *)
Definition Path (s : str) : fspath :=
  filter (fun c => negb (str_eqb c [] || str_eqb c (py "."))) (split SLASH s).

(** [str(p)] *)
Definition Path_str (p : fspath) : str :=
  match p with
  | [] => py "."
  | _ => join [SLASH] p
  end.

(** [p.name] *)
Definition name (p : fspath) : str := last p [].

(** [p.parent] *)
Definition parent (p : fspath) : fspath := removelast p.

Fixpoint strip_prefix (base p : fspath) : option fspath :=
  match base, p with
  | [], _ => Some p
  | b :: base', c :: p' => if str_eqb b c then strip_prefix base' p' else None
  | _ :: _, [] => None
  end.

(** [p.relative_to(base)] *)
Definition relative_to (p base : fspath) : result fspath :=
  match strip_prefix base p with
  | Some rel => inr rel
  | None =>
      inl {| class := ValueError;
             message := Path_str p ++ py " is not in the subpath of " ++ Path_str base |}
  end.

Fixpoint fs_find (files : filesystem) (p : fspath) : option entry :=
  match files with
  | [] => None
  | (q, e) :: files' => if fspath_eqb q p then Some e else fs_find files' p
  end.

(** The empty path is the directory the run starts in. *)
Definition fs_lookup (files : filesystem) (p : fspath) : option entry :=
  match p with
  | [] => Some Dir
  | _ => fs_find files p
  end.

(** [print(line)]: standard output is taken to encode text as UTF-8 with
    strict error handling; what cannot be encoded (a lone surrogate, as
    in a file name that is not valid UTF-8) is refused with a
    [UnicodeEncodeError], and nothing is written then. *)
Definition print (line : str) : M World unit :=
  fun w => match utf8_encode line with
           | inl e => (inl e, w)
           | inr _ => (inr tt, with_stdout w (stdout w ++ [line]))
           end.

(** [Path(p).exists()] *)
Definition exists_ (p : fspath) : M World bool :=
  fun w => (inr (match fs_lookup (fs w) p with Some _ => true | None => false end), w).

(** [os.path.exists(s)]: the empty string names nothing. *)
Definition os_path_exists (s : str) : M World bool :=
  match s with
  | [] => ret false
  | _ => exists_ (Path s)
  end.

(** [base.rglob(pattern)]: the entries below [base] whose path relative
    to [base] the pattern selects, in enumeration order. *)
Definition rglob (base : fspath) (pattern : str) : M World (list fspath) :=
  fun w =>
    (inr (flat_map
            (fun pe : fspath * entry =>
               match strip_prefix base (fst pe) with
               | Some ((_ :: _) as rel) =>
                   if glob w pattern rel then [fst pe] else []
               | _ => []
               end)
            (fs w)),
     w).

(** [with open(p, "r", encoding="utf-8") as f: f.read()] *)
Definition read_text (p : fspath) : M World str :=
  fun w =>
    (match fs_lookup (fs w) p with
     | Some (File data) => data
     | Some Dir =>
         inl {| class := IsADirectoryError;
                message := py "Is a directory: " ++ Path_str p |}
     | None =>
         inl {| class := FileNotFoundError;
                message := py "No such file or directory: " ++ Path_str p |}
     end, w).

(** [p.mkdir(exist_ok=True)]: [parents] keeps its default [False]; an
    existing directory is accepted, anything else the operating system
    reports is raised. *)
Definition mkdir_exist_ok (p : fspath) : M World unit :=
  fun w =>
    match fs_lookup (fs w) p with
    | Some Dir => (inr tt, w)
    | Some (File _) =>
        (inl {| class := FileExistsError;
                message := py "File exists: " ++ Path_str p |}, w)
    | None =>
        match fs_lookup (fs w) (parent p) with
        | Some Dir =>
            match mkdir_denied w p with
            | Some e => (inl e, w)
            | None => (inr tt, with_fs w (fs w ++ [(p, Dir)]))
            end
        | Some (File _) =>
            (inl {| class := NotADirectoryError;
                    message := py "Not a directory: " ++ Path_str p |}, w)
        | None =>
            (inl {| class := FileNotFoundError;
                    message := py "No such file or directory: " ++ Path_str p |}, w)
        end
    end.

(** [os.path.join(a, b)] for a relative [b] *)
Definition os_path_join (a b : str) : str :=
  match a with
  | [] => b
  | _ => if endswith a [SLASH] then a ++ b else a ++ [SLASH] ++ b
  end.

(** [model(prompt, max_tokens=..., temperature=...)] *)
Definition call (model : Llama) (req : GenerationRequest) : M World Completion :=
  fun w => (model (calls w) req, with_calls w (calls w ++ [req])).

(** The libraries the script loads and this development does not look
    into. *)
Record Libs := {
  (** [llama_cpp.Llama(model_path=..., n_ctx=...)] *)
  Llama_init : str -> Z -> filesystem -> result Llama;
  (** [tree_sitter.Parser()] *)
  Parser_new : result Parser;
  (** [tree_sitter_python.language()] *)
  python_language : result Language;
  (** [parser.set_language(language)], giving the parser as the call
      leaves it *)
  set_language : Parser -> Language -> result Parser;
  (** [pd.DataFrame(rows).to_json(path, orient="records", lines=True,
      force_ascii=False)] *)
  to_json : list QARecord -> str -> filesystem -> result filesystem
}.

(** ** Functions with a local list they append to

    [extract_code] and [generate_qa_pairs] grow a local list inside
    [try] blocks; the list is part of the state, so that what was
    appended before an exception stays appended. *)

Definition in_world {L A} (m : M World A) : M (World * L) A :=
  fun st => let '(r, w') := m (fst st) in (r, (w', snd st)).

Definition extend {L} (xs : list L) : M (World * list L) unit :=
  fun st => (inr tt, (fst st, snd st ++ xs)).

Definition update {L} (g : list L -> list L) : M (World * list L) unit :=
  fun st => (inr tt, (fst st, g (snd st))).

(** Run [m] with the local list initially empty and return the list. *)
Definition returning_list {L} (m : M (World * list L) unit) : M World (list L) :=
  fun w => match m (w, []) with
           | (inl e, (w', _)) => (inl e, w')
           | (inr _, (w', l)) => (inr l, w')
           end.

(** ** The functions of the script *)

Section Script.

Variable lib : Libs.

Definition initialize_model (model_path : str) (n_ctx : Z) : M World Llama :=
  present <- os_path_exists model_path ;;
  if negb present then
    raise {| class := FileNotFoundError;
             message := py "Model file not found at [USER_HOME]/models/starcoder-q5_K_M.gguf" |}
  else
    fun w => (Llama_init lib model_path n_ctx (fs w), w).

Definition initialize_parser : M World Parser :=
  try_except
    (parser <- pure_call (Parser_new lib) ;;
     PY_LANGUAGE <- pure_call (python_language lib) ;;
     parser <- pure_call (set_language lib parser PY_LANGUAGE) ;;
     ret parser)
    (fun e =>
       raise {| class := RuntimeError;
                message := py "Failed to initialize parser: " ++ message e |}).

(** The body of [for file_path in repo_path.rglob(...)] (lines 69-79). *)
Definition read_body (repo_path file_path : fspath) : M (World * list CodeFile) unit :=
  try_except
    (code <- in_world (read_text file_path) ;;
     rel <- pure_call (relative_to file_path repo_path) ;;
     extend [ {| path := Path_str rel;
                 content := code;
                 repo := name repo_path |} ] ;;;
     rel <- pure_call (relative_to file_path repo_path) ;;
     in_world (print (py "Extracted file: [USER_HOME]/Documents/flask/"
                        ++ Path_str rel)))
    (fun e =>
       rel <- pure_call (relative_to file_path repo_path) ;;
       in_world (print (py "Failed to read file " ++ Path_str rel
                          ++ py ": " ++ message e))).

Definition extract_code (repo_path file_extension : str) : M World (list CodeFile) :=
  returning_list
    (let repo_path := Path repo_path in
     present <- in_world (exists_ repo_path) ;;
     if negb present then
       raise {| class := ValueError;
                message := py "Repository path [USER_HOME]/Documents/flask does not exist" |}
     else
       found <- in_world (rglob repo_path (py "*" ++ file_extension)) ;;
       for_each found (read_body repo_path)).

Definition make_prompt (func_code : str) : str :=
  py "Generate 3 questions and answers to help understand the functionality of this Python function:"
    ++ [LF] ++ func_code ++ [LF; LF] ++ py "Format:" ++ [LF]
    ++ py "Question: ..." ++ [LF] ++ py "Answer: ...".

(** [bytes(file["content"], "utf-8")] and [parser.parse(...)] (line 98). *)
Definition syntax_tree (parser : Parser) (f : CodeFile) : result Tree :=
  match utf8_encode (content f) with
  | inl e => inl e
  | inr src => parse parser src
  end.

(** [PY_LANGUAGE.query(...)] and [query.captures(tree.root_node)]
    (lines 99-103); [PY_LANGUAGE] is a global name of the function. *)
Definition find_units (G : namespace) (tree : Tree) : result (list (Node * str)) :=
  match load_global G "PY_LANGUAGE" with
  | inl e => inl e
  | inr PY_LANGUAGE =>
      match get_query PY_LANGUAGE FUNC_QUERY with
      | inl e => inl e
      | inr query => inr (captures query (root_node tree))
      end
  end.

(** [model(prompt, max_tokens=2048, temperature=0.7)["choices"][0]["text"]]
    (line 113). *)
Definition ask (model : Llama) (prompt : str) : M World str :=
  completion <- call model {| prompt := prompt;
                              max_tokens := 2048;
                              temperature := 7 # 10 |} ;;
  choice <- pure_call (first (choices completion)) ;;
  ret (text choice).

Section Generate.

(** The namespace in which the body of [generate_qa_pairs] resolves
    its global names, and the two arguments that stay fixed. *)
Variables (G : namespace) (parser : Parser) (model : Llama).

(** The body of [for node, _ in captures] (lines 106-132). *)
Definition unit_body (f : CodeFile) (tree : Tree) (capture : Node * str)
  : M (World * list QARecord) unit :=
  let node := fst capture in
  func_name <- pure_call (utf8_decode (node_text tree node)) ;;
  let func_code := slice (content f) (start_byte node) (end_byte node) in
  let prompt := make_prompt func_code in
  try_except
    (response <- in_world (ask model prompt) ;;
     update (scan_response func_code func_name f response))
    (fun e =>
       in_world (print (py "Failed to generate QA for " ++ path f
                          ++ py ", function " ++ func_name
                          ++ py ": " ++ message e))).

(** The body of [for file in code_files] (lines 97-134). *)
Definition file_body (f : CodeFile) : M (World * list QARecord) unit :=
  try_except
    (tree <- pure_call (syntax_tree parser f) ;;
     found <- pure_call (find_units G tree) ;;
     for_each found (unit_body f tree))
    (fun e =>
       in_world (print (py "Error processing file " ++ path f
                          ++ py ": " ++ message e))).

Definition generate_qa_pairs (code_files : list CodeFile)
  : M World (list QARecord) :=
  returning_list (for_each code_files file_body).

End Generate.

Definition save_qa_pairs (qa_pairs : list QARecord) (output_dir : str)
  : M World unit :=
  mkdir_exist_ok (Path output_dir) ;;;
  let output_file := os_path_join output_dir (py "qa_pairs.json") in
  try_except
    ((fun w =>
        match to_json lib qa_pairs output_file (fs w) with
        | inl e => (inl e, w)
        | inr files => (inr tt, with_fs w files)
        end) ;;;
     print (py "QA pairs saved to [USER_HOME]/Documents/output_data/qa_pairs.json"))
    (fun e =>
       print (py "Failed to save QA pairs to " ++ output_file
                ++ py ": " ++ message e)).

(** The steps of [main] inside its [try], up to the list of records. *)
Definition collect : M World (list QARecord) :=
  model <- initialize_model MODEL_PATH 2048 ;;
  parser <- initialize_parser ;;
  code_files <- extract_code REPO_PATH FILE_EXTENSION ;;
  generate_qa_pairs module_globals parser model code_files.

Definition main : M World unit :=
  print (py "Starting QA pair generation...") ;;;
  try_except
    (qa_pairs <- collect ;;
     save_qa_pairs qa_pairs OUTPUT_PATH ;;;
     print (py "QA pair generation completed."))
    (fun e =>
       print (py "Error in main execution: " ++ message e) ;;;
       raise e).

End Script.

(** ** A concrete world: one repository, one file, one function

    The repository of the end-to-end scenario: the configured repository
    directory holds the single file [add.py] with the text
    [def add(a, b): return a + b]; the model file exists; the backend
    answers every request with the same two question/answer pairs. *)

Module Scenario.

Definition ADD_SOURCE : str := py "def add(a, b): return a + b".

Definition leaf (t : string) (a b : nat) : option str * Node :=
  (None, mkNode (py t) a b []).

Definition ident (fld : option string) (a b : nat) : option str * Node :=
  (option_map py fld, mkNode (py "identifier") a b []).

(** The syntax tree of [ADD_SOURCE] under the Python grammar. *)
Definition add_tree : Node :=
  mkNode (py "module") 0 27
    [ (None,
       mkNode (py "function_definition") 0 27
         [ leaf "def" 0 3;
           ident (Some "name"%string) 4 7;
           (Some (py "parameters"),
            mkNode (py "parameters") 7 13
              [ leaf "(" 7 8; ident None 8 9; leaf "," 9 10;
                ident None 11 12; leaf ")" 12 13 ]);
           leaf ":" 13 14;
           (Some (py "body"),
            mkNode (py "block") 15 27
              [ (None,
                 mkNode (py "return_statement") 15 27
                   [ leaf "return" 15 21;
                     (None,
                      mkNode (py "binary_operator") 22 27
                        [ ident (Some "left"%string) 22 23;
                          (Some (py "operator"), mkNode (py "+") 24 25 []);
                          ident (Some "right"%string) 26 27 ]) ]) ]) ]) ].

(** A second source, with a character of two bytes before the function:
    the assignment of 1 to a variable named by the letter e with acute
    accent (U+00E9), then [def f(): pass] on the next line. *)
Definition ACCENT_SOURCE : str :=
  [233%N] ++ py " = 1" ++ [LF] ++ py "def f(): pass".

(** Its syntax tree; the offsets count bytes, so the function starts at
    byte 7. *)
Definition accent_tree : Node :=
  mkNode (py "module") 0 20
    [ (None,
       mkNode (py "expression_statement") 0 6
         [ (None,
            mkNode (py "assignment") 0 6
              [ ident (Some "left"%string) 0 2;
                leaf "=" 3 4;
                (Some (py "right"), mkNode (py "integer") 5 6 []) ]) ]);
      (None,
       mkNode (py "function_definition") 7 20
         [ leaf "def" 7 10;
           ident (Some "name"%string) 11 12;
           (Some (py "parameters"),
            mkNode (py "parameters") 12 14 [ leaf "(" 12 13; leaf ")" 13 14 ]);
           leaf ":" 14 15;
           (Some (py "body"),
            mkNode (py "block") 16 20
              [ (None, mkNode (py "pass_statement") 16 20 [ leaf "pass" 16 20 ]) ]) ]) ].

(** A grammar that knows these two source texts; any other text parses
    to a module without definitions. *)
Definition python : Language :=
  {| grammar := fun src =>
       match utf8_decode src with
       | inr s =>
           if str_eqb s ADD_SOURCE then inr add_tree
           else if str_eqb s ACCENT_SOURCE then inr accent_tree
           else inr (mkNode (py "module") 0 (List.length src) [])
       | inl e => inl e
       end |}.

Definition BACKEND_TEXT : str :=
  py "Question: What does it do?" ++ [LF]
    ++ py "Answer: It adds two numbers." ++ [LF]
    ++ py "Question: What are its inputs?" ++ [LF]
    ++ py "Answer: Two numbers.".

Definition backend : Llama :=
  fun _ _ => inr {| choices := [ {| text := BACKEND_TEXT |} ] |}.

(** A backend that is not reachable. *)
Definition UNREACHABLE : exn :=
  {| class := RuntimeError; message := py "backend not reachable" |}.

Definition backend_down : Llama := fun _ _ => inl UNREACHABLE.

Definition QUOTE : codepoint := 34%N.

Definition json_string (s : str) : str :=
  [QUOTE]
    ++ flat_map (fun c => if N.eqb c QUOTE then [92%N; QUOTE]
                          else if N.eqb c 92 then [92%N; 92%N]
                          else if N.eqb c LF then [92%N; 110%N]
                          else [c]) s
    ++ [QUOTE].

Definition json_line (r : QARecord) : str :=
  py "{" ++ json_string (py "question") ++ py ":" ++ json_string (question r)
    ++ py "," ++ json_string (py "answer") ++ py ":" ++ json_string (answer r)
    ++ py "," ++ json_string (py "code_snippet") ++ py ":" ++ json_string (code_snippet r)
    ++ py "," ++ json_string (py "reasoning") ++ py ":" ++ json_string (reasoning r)
    ++ py "," ++ json_string (py "file") ++ py ":" ++ json_string (file r)
    ++ py "," ++ json_string (py "repo") ++ py ":" ++ json_string (qa_repo r)
    ++ py "}" ++ [LF].

(** A writer that stores one JSON object per line; it fails when the
    target is a directory or its directory is missing. *)
Definition write_lines (rows : list QARecord) (target : str) (files : filesystem)
  : result filesystem :=
  let p := Path target in
  match fs_lookup files p, fs_lookup files (parent p) with
  | Some Dir, _ =>
      inl {| class := IsADirectoryError; message := py "Is a directory: " ++ target |}
  | _, Some Dir =>
      inr ((p, File (inr (flat_map json_line rows)))
             :: filter (fun pe => negb (fspath_eqb (fst pe) p)) files)
  | _, _ =>
      inl {| class := FileNotFoundError;
             message := py "No such file or directory: " ++ target |}
  end.

Definition lib : Libs :=
  {| Llama_init := fun _ _ _ => inr backend;
     Parser_new := inr blank_parser;
     python_language := inr python;
     set_language := fun p l => inr (with_language p l);
     to_json := write_lines |}.

(** A disk on which nothing can be written any more. *)
Definition lib_disk_full : Libs :=
  {| Llama_init := fun _ _ _ => inr backend;
     Parser_new := inr blank_parser;
     python_language := inr python;
     set_language := fun p l => inr (with_language p l);
     to_json := fun _ _ _ =>
       inl {| class := OSError; message := py "No space left on device" |} |}.

Definition dirs (ps : list string) : filesystem :=
  map (fun p => (Path (py p), Dir)) ps.

Definition base_files : filesystem :=
  dirs [ "C:"; "C:/Users"; "C:/Users/cym"; "C:/Users/cym/Documents";
         "C:/Users/cym/models"; "C:/Users/cym/Documents/flask" ]%string
    ++ [ (Path MODEL_PATH, File (inl invalid_utf8));
         (Path (REPO_PATH ++ py "/add.py"), File (inr ADD_SOURCE)) ].

(** Matching of a pattern of one component against a name: [*] stands
    for any run of characters, [?] for one character, anything else for
    itself (character classes are not interpreted). *)
Fixpoint wild (p : str) : str -> bool :=
  match p with
  | [] => fun s => match s with [] => true | _ :: _ => false end
  | c :: p' =>
      if N.eqb c 42 then
        fix star (s : str) : bool :=
          wild p' s || match s with [] => false | _ :: s' => star s' end
      else
        fun s => match s with
                 | [] => false
                 | d :: s' => (N.eqb c 63 || N.eqb d c) && wild p' s'
                 end
  end.

(** A platform whose glob looks at the name of the entry and that never
    refuses to create a directory. *)
Definition platform (files : filesystem) : World :=
  {| fs := files; stdout := []; calls := [];
     glob := fun pattern rel => wild pattern (name rel);
     mkdir_denied := fun _ => None |}.

Definition world : World := platform base_files.

(** The same world with a regular file where the output directory is
    to be. *)
Definition world_output_is_file : World :=
  platform (base_files ++ [ (Path OUTPUT_PATH, File (inr [])) ]).

(** The same world on a device that takes no new directory. *)
Definition READ_ONLY : exn :=
  {| class := OSError; message := py "Read-only file system" |}.

Definition world_read_only : World :=
  {| fs := base_files; stdout := []; calls := [];
     glob := fun pattern rel => wild pattern (name rel);
     mkdir_denied := fun _ => Some READ_ONLY |}.






Definition add_file : CodeFile :=
  {| path := py "add.py"; content := ADD_SOURCE; repo := py "flask" |}.

Definition accent_file : CodeFile :=
  {| path := py "accent.py"; content := ACCENT_SOURCE; repo := py "flask" |}.

Definition parser : Parser := with_language blank_parser python.

(** The module namespace with [PY_LANGUAGE] bound at the top level, as
    a caller that assigns the attribute on the imported module sees
    it. *)
Definition patched_globals : namespace :=
  ("PY_LANGUAGE"%string, PyLanguage python) :: module_globals.

(** What [generate_qa_pairs] returns for [add_file] under
    [patched_globals]. *)
Definition patched_records : list QARecord :=
  [ mk_record (py "add") (py "add") add_file
      (py "What does it do?") (py "It adds two numbers.");
    mk_record (py "add") (py "add") add_file
      (py "What are its inputs?") (py "Two numbers.") ].

End Scenario.

(** ** A binding that reports a skewed range

    A language whose tree for any source is one function definition with
    its name at bytes 1 to 2: on a source that starts with a character of
    two bytes the text of the name is a lone continuation byte. *)

Module Skewed.

Definition skewed_tree : Node :=
  mkNode (py "module") 0 20
    [ (None,
       mkNode (py "function_definition") 7 20
         [ Scenario.ident (Some "name"%string) 11 12 ]);
      (None,
       mkNode (py "function_definition") 0 6
         [ Scenario.ident (Some "name"%string) 1 2 ]);
      (None,
       mkNode (py "function_definition") 7 20
         [ Scenario.ident (Some "name"%string) 16 20 ]) ].

Definition language : Language := {| grammar := fun _ => inr skewed_tree |}.

Definition parser : Parser := with_language blank_parser language.

Definition globals : namespace :=
  ("PY_LANGUAGE"%string, PyLanguage language) :: module_globals.

Definition tree : Tree :=
  {| source := [195; 169; 32; 61; 32; 49; 10; 100; 101; 102; 32; 102; 40; 41;
                58; 32; 112; 97; 115; 115]%N;
     root_node := skewed_tree |}.

End Skewed.

(** ** Libraries that fail at the start *)

Module Faulty.

Definition BAD_MODEL : exn :=
  {| class := ValueError; message := py "Failed to load model from file" |}.

Definition NO_GRAMMAR : exn :=
  {| class := OSError; message := py "cannot load the grammar library" |}.

Definition NO_PARSER : exn :=
  {| class := RuntimeError; message := py "parser allocation failed" |}.

Definition NOT_A_LANGUAGE : exn :=
  {| class := TypeError;
     message := py "argument must tree_sitter.Language, not int" |}.

(** The model file is there and is not a model. *)
Definition lib_bad_model : Libs :=
  {| Llama_init := fun _ _ _ => inl BAD_MODEL;
     Parser_new := inr blank_parser;
     python_language := inr Scenario.python;
     set_language := fun p l => inr (with_language p l);
     to_json := Scenario.write_lines |}.

(** [Parser()] fails. *)
Definition lib_no_parser : Libs :=
  {| Llama_init := fun _ _ _ => inr Scenario.backend;
     Parser_new := inl NO_PARSER;
     python_language := inr Scenario.python;
     set_language := fun p l => inr (with_language p l);
     to_json := Scenario.write_lines |}.

(** The grammar cannot be loaded. *)
Definition lib_no_grammar : Libs :=
  {| Llama_init := fun _ _ _ => inr Scenario.backend;
     Parser_new := inr blank_parser;
     python_language := inl NO_GRAMMAR;
     set_language := fun p l => inr (with_language p l);
     to_json := Scenario.write_lines |}.

(** [set_language] does not take what [python_language()] gives. *)
Definition lib_bad_binding : Libs :=
  {| Llama_init := fun _ _ _ => inr Scenario.backend;
     Parser_new := inr blank_parser;
     python_language := inr Scenario.python;
     set_language := fun _ _ => inl NOT_A_LANGUAGE;
     to_json := Scenario.write_lines |}.

End Faulty.

(** ** Vocabulary of the statements *)

(** A text of white space only. *)
Definition all_space (s : str) : Prop := Forall (fun c => isspace c = true) s.

(** A text standard output takes: it has a UTF-8 encoding. *)
Definition printable (s : str) : Prop := exists bs, utf8_encode s = inr bs.

(** [m] occurs in [s]. *)
Fixpoint contains (s m : str) : bool :=
  startswith s m || match s with [] => false | _ :: s' => contains s' m end.

(** The world after one more line on standard output. *)
Definition log (w : World) (line : str) : World :=
  with_stdout w (stdout w ++ [line]).

(** The text that [generate_qa_pairs] slices out of a file for a captured
    node. *)
Definition snippet (f : CodeFile) (n : Node) : str :=
  slice (content f) (start_byte n) (end_byte n).

(** The lines the two [except] clauses of [generate_qa_pairs] print. *)
Definition unit_failure_line (f : CodeFile) (func_name : str) (e : exn) : str :=
  py "Failed to generate QA for " ++ path f ++ py ", function " ++ func_name
    ++ py ": " ++ message e.

Definition file_failure_line (f : CodeFile) (e : exn) : str :=
  py "Error processing file " ++ path f ++ py ": " ++ message e.

(** The line [extract_code] prints for a file it could not read. *)
Definition read_failure_line (rel : fspath) (e : exn) : str :=
  py "Failed to read file " ++ Path_str rel ++ py ": " ++ message e.


Definition REPO_MISSING : exn :=
  {| class := ValueError;
     message := py "Repository path [USER_HOME]/Documents/flask does not exist" |}.

(** The world in which [main] stops on exception [e]. *)
Definition stopped (w : World) (e : exn) : World :=
  log (log w (py "Starting QA pair generation..."))
      (py "Error in main execution: " ++ message e).

(** The worlds and lines of [save_qa_pairs]. *)
Definition created (w : World) (p : fspath) : World :=
  with_fs w (fs w ++ [(p, Dir)]).

Definition written (w : World) (files : filesystem) : World := with_fs w files.

Definition SAVED_LINE : str :=
  py "QA pairs saved to [USER_HOME]/Documents/output_data/qa_pairs.json".

Definition save_failure_line (target : str) (e : exn) : str :=
  py "Failed to save QA pairs to " ++ target ++ py ": " ++ message e.

(** The two kinds of marker line, as the [if]/[elif] chain tells them
    apart. *)
Definition question_line (l : str) : bool := startswith l QUESTION.

Definition answer_line (l : str) : bool :=
  negb (startswith l QUESTION) && startswith l ANSWER.

(** A completion of alternating marker lines: for each pair a question
    line and an answer line. *)
Definition qa_lines (pairs : list (str * str)) : list str :=
  flat_map (fun qa => [QUESTION ++ fst qa; ANSWER ++ snd qa]) pairs.

(** Bodies of one line without a marker of their own: the question does
    not hold the text [Question:], has no line feed and is not blank; the
    answer does not hold the text [Answer:] and has no line feed. *)
Definition plain_pair (qa : str * str) : Prop :=
  contains (fst qa) QUESTION = false /\ ~ In LF (fst qa) /\ strip (fst qa) <> []
  /\ contains (snd qa) ANSWER = false /\ ~ In LF (snd qa).

(** What every record of a unit has: a question that is not empty, both
    texts stripped, and the snippet, path and repository of the unit. *)
Definition record_of_unit (func_code : str) (f : CodeFile) (r : QARecord) : Prop :=
  question r <> []
  /\ strip (question r) = question r
  /\ strip (answer r) = answer r
  /\ code_snippet r = func_code
  /\ file r = path f
  /\ qa_repo r = repo f.

(** A record of a file: it has the slice at the range of a node the
    query captured in the tree of that file. *)
Definition captured_in (parser : Parser) (f : CodeFile) (r : QARecord) : Prop :=
  exists tree n c,
    syntax_tree parser f = inr tree
    /\ In (n, c) (captures FUNC_QUERY (root_node tree))
    /\ record_of_unit (snippet f n) f r.

(** One when a question is waiting for its answer. *)
Definition waiting (q : option str) : nat := if truthy q then 1 else 0.


(** The outcome of a loop run on a list that already held [acc]. *)
Definition prefixed {A} (acc : list QARecord)
    (x : result A * (World * list QARecord)) : result A * (World * list QARecord) :=
  (fst x, (fst (snd x), acc ++ snd (snd x))).

(** The outcome of a statement that leaves the local list as it is. *)
Definition kept {A L} (acc : list L) (x : result A * World)
  : result A * (World * list L) :=
  (fst x, (snd x, acc)).


(** The world after some more lines on standard output. *)
Definition logged (w : World) (lines : list str) : World :=
  with_stdout w (stdout w ++ lines).

(** The error [generate_qa_pairs] meets on a file when [PY_LANGUAGE] is
    not a global: that of building the tree if there is one, else the
    [NameError]. *)
Definition NAME_ERROR : exn :=
  {| class := NameError; message := py "name 'PY_LANGUAGE' is not defined" |}.

Definition shipped_line (parser : Parser) (f : CodeFile) : str :=
  file_failure_line f (match syntax_tree parser f with
                       | inl e => e
                       | inr _ => NAME_ERROR
                       end).

(** The request [generate_qa_pairs] sends for a snippet. *)
Definition request (func_code : str) : GenerationRequest :=
  {| prompt := make_prompt func_code; max_tokens := 2048; temperature := 7 # 10 |}.

(** A text of ASCII characters only. *)
Definition ascii (s : list N) : Prop := Forall (fun c => (c < 128)%N) s.

(** The capture has a text that decodes. *)
Definition decodes (tree : Tree) (cap : Node * str) : Prop :=
  exists func_name, utf8_decode (node_text tree (fst cap)) = inr func_name.

(** Whatever error the model call gives for one of the captures, the line
    that reports it can be printed. *)
Definition failures_print (model : Llama) (f : CodeFile) (tree : Tree)
    (caps : list (Node * str)) : Prop :=
  forall cap func_name w e,
    In cap caps ->
    utf8_decode (node_text tree (fst cap)) = inr func_name ->
    fst (ask model (make_prompt (snippet f (fst cap))) w) = inl e ->
    printable (unit_failure_line f func_name e).

(** What [extract_code] finds, reads and prints: the entries below
    [base] the pattern selects; the outcome of reading one; the
    dictionary and the line for one. *)
Definition matches (w : World) (base : fspath) (pattern : str) : list fspath :=
  flat_map
    (fun pe : fspath * entry =>
       match strip_prefix base (fst pe) with
       | Some ((_ :: _) as rel) =>
           if glob w pattern rel then [fst pe] else []
       | _ => []
       end)
    (fs w).

Definition read_result (files : filesystem) (p : fspath) : result str :=
  match fs_lookup files p with
  | Some (File data) => data
  | Some Dir =>
      inl {| class := IsADirectoryError;
             message := py "Is a directory: " ++ Path_str p |}
  | None =>
      inl {| class := FileNotFoundError;
             message := py "No such file or directory: " ++ Path_str p |}
  end.

Definition extracted (files : filesystem) (base p : fspath) : list CodeFile :=
  match strip_prefix base p, read_result files p with
  | Some rel, inr code =>
      [ {| path := Path_str rel; content := code; repo := name base |} ]
  | _, _ => []
  end.

Definition extract_line (files : filesystem) (base p : fspath) : str :=
  match strip_prefix base p with
  | Some rel =>
      match read_result files p with
      | inr _ => py "Extracted file: [USER_HOME]/Documents/flask/" ++ Path_str rel
      | inl e => read_failure_line rel e
      end
  | None => []
  end.

(** The pattern is a literal ending: what it selects ends with [suffix]. *)
Definition selects_ending (w : World) (pattern suffix : str) : Prop :=
  forall rel, glob w pattern rel = true -> endswith (name rel) suffix = true.

(** The target file of [save_qa_pairs] in [main], and the first and last
    line of a run. *)
Definition TARGET : str := os_path_join OUTPUT_PATH (py "qa_pairs.json").

Definition COMPLETED : str := py "QA pair generation completed.".

Definition START : str := py "Starting QA pair generation...".

(** The line [main] prints for the exception it raises again. *)
Definition main_error_line (e : exn) : str :=
  py "Error in main execution: " ++ message e.

(** How [main] ends on an exception [e] of its [try] block: it prints the
    error and raises [e] again, unless the printing raises. *)
Definition raised_again {A} (e : exn) (w : World) : result A * World :=
  match print (main_error_line e) w with
  | (inl e', w') => (inl e', w')
  | (inr _, w') => (inl e, w')
  end.

(** The [RuntimeError] of [initialize_parser] for a cause [e]. *)
Definition PARSER_FAILED (e : exn) : exn :=
  {| class := RuntimeError;
     message := py "Failed to initialize parser: " ++ message e |}.

(** The body of the [try] of [initialize_parser], before the error is
    wrapped. *)
Definition parser_setup (lib : Libs) : result Parser :=
  match Parser_new lib with
  | inl e => inl e
  | inr p =>
      match python_language lib with
      | inl e => inl e
      | inr l => set_language lib p l
      end
  end.

(** * Properties *)

Unset Implicit Arguments.

(** ** Strings *)

Lemma startswith_app (p s : str) : startswith (p ++ s) p = true.
Proof.
  induction p as [|c p IH]; simpl; [reflexivity|].
  now rewrite N.eqb_refl, IH.
Qed.

Lemma startswith_prefix (p s : str) :
  startswith s p = true <-> exists rest, s = p ++ rest.
Proof.
  split.
  - revert s; induction p as [|c p IH]; intros s H.
    + now exists s.
    + destruct s as [|d s]; simpl in H; [discriminate|].
      apply andb_true_iff in H as [Hc Hs].
      apply N.eqb_eq in Hc; subst d.
      destruct (IH _ Hs) as [rest ->]. now exists rest.
  - intros [rest ->]. apply startswith_app.
Qed.

Lemma startswith_false (p s : str) :
  (forall rest, s <> p ++ rest) -> startswith s p = false.
Proof.
  intros H. destruct (startswith s p) eqn:E; [|reflexivity].
  apply startswith_prefix in E as [rest ->]. now destruct (H rest).
Qed.

Lemma startswith_head (c d : codepoint) (p s : str) :
  c <> d -> startswith (c :: s) (d :: p) = false.
Proof.
  intros H. simpl. apply N.eqb_neq in H. now rewrite H.
Qed.

(** After an occurrence has been found, the rest of it is skipped. *)
Lemma replace_from_skip (old new p s : str) :
  replace_from old new (List.length p) (p ++ s) = replace_from old new 0 s.
Proof.
  induction p as [|c p IH]; simpl; [reflexivity | exact IH].
Qed.

Lemma replace_from_occurrence (c : codepoint) (old new s : str) :
  replace_from (c :: old) new 0 ((c :: old) ++ s)
  = new ++ replace_from (c :: old) new 0 s.
Proof.
  change (replace_from (c :: old) new 0 ((c :: old) ++ s))
    with (if startswith ((c :: old) ++ s) (c :: old)
          then new ++ replace_from (c :: old) new (List.length (c :: old) - 1) (old ++ s)
          else c :: replace_from (c :: old) new 0 (old ++ s)).
  rewrite startswith_app.
  replace (List.length (c :: old) - 1) with (List.length old) by (simpl; lia).
  now rewrite replace_from_skip.
Qed.

(** Text without the first character of [old] is copied unchanged. *)
Lemma replace_from_clean (c : codepoint) (old new a s : str) :
  ~ In c a ->
  replace_from (c :: old) new 0 (a ++ s) = a ++ replace_from (c :: old) new 0 s.
Proof.
  induction a as [|d a IH]; intros H; [reflexivity|].
  change (replace_from (c :: old) new 0 ((d :: a) ++ s))
    with (if startswith (d :: a ++ s) (c :: old)
          then new ++ replace_from (c :: old) new (List.length (c :: old) - 1) (a ++ s)
          else d :: replace_from (c :: old) new 0 (a ++ s)).
  rewrite startswith_head by (intros ->; apply H; now left).
  rewrite IH by (intros Hin; apply H; now right). reflexivity.
Qed.

Lemma replace_from_nil (old new : str) (k : nat) : replace_from old new k [] = [].
Proof. now destruct k. Qed.

Lemma lstrip_all_space (s : str) : all_space s -> lstrip s = [].
Proof.
  induction 1 as [|c s Hc _ IH]; simpl; [reflexivity|]. now rewrite Hc.
Qed.

Lemma strip_all_space (s : str) : all_space s -> strip s = [].
Proof.
  intros H. unfold strip, rstrip. now rewrite (lstrip_all_space _ H).
Qed.

Lemma all_space_not_In (c : codepoint) (s : str) :
  isspace c = false -> all_space s -> ~ In c s.
Proof.
  intros Hc Hs Hin. unfold all_space in Hs. rewrite Forall_forall in Hs.
  specialize (Hs _ Hin). congruence.
Qed.

(** Deleting a marker from a line that starts with it and has no other
    occurrence. *)
Lemma replace_marker_once (c : codepoint) (old a : str) :
  ~ In c a -> replace ((c :: old) ++ a) (c :: old) [] = a.
Proof.
  intros Ha. unfold replace.
  rewrite replace_from_occurrence, app_nil_l.
  rewrite <- (app_nil_r a) at 1.
  rewrite replace_from_clean by assumption.
  now rewrite replace_from_nil, app_nil_r.
Qed.

Lemma replace_question_once (a : str) :
  ~ In 81%N a -> replace (QUESTION ++ a) QUESTION [] = a.
Proof. exact (@replace_marker_once 81%N (py "uestion:") a). Qed.

Lemma replace_answer_once (a : str) :
  ~ In 65%N a -> replace (ANSWER ++ a) ANSWER [] = a.
Proof. exact (@replace_marker_once 65%N (py "nswer:") a). Qed.

(** ** The response scan *)

Section ScanFacts.

Variables (func_code func_name : str) (f : CodeFile).

Let step := scan_line func_code func_name f.
Let record := mk_record func_code func_name f.

Lemma scan_line_question (st : scan_state) (line : str) :
  startswith line QUESTION = true ->
  step st line = (Some (strip (replace line QUESTION [])), snd st).
Proof.
  intros H. destruct st as [q acc]. unfold step, scan_line. now rewrite H.
Qed.

Lemma scan_line_answer (q : option str) (acc : list QARecord) (line : str) :
  startswith line QUESTION = false ->
  startswith line ANSWER = true ->
  truthy q = true ->
  step (q, acc) line
  = (None, acc ++ [record (pending q) (strip (replace line ANSWER []))]).
Proof.
  intros H1 H2 H3. unfold step, scan_line. now rewrite H1, H2, H3.
Qed.

Lemma scan_line_orphan (st : scan_state) (line : str) :
  startswith line QUESTION = false ->
  truthy (fst st) = false ->
  step st line = st.
Proof.
  intros H1 H3. destruct st as [q acc]. unfold step, scan_line. simpl in H3.
  rewrite H1, H3. now destruct (startswith line ANSWER).
Qed.

Lemma scan_line_other (st : scan_state) (line : str) :
  startswith line QUESTION = false ->
  startswith line ANSWER = false ->
  step st line = st.
Proof.
  intros H1 H2. destruct st as [q acc]. unfold step, scan_line. now rewrite H1, H2.
Qed.

Lemma truthy_Some (q : option str) :
  truthy q = true -> exists s, q = Some s /\ s <> [].
Proof.
  destruct q as [[|c s]|]; simpl; try discriminate.
  intros _. exists (c :: s). split; [reflexivity | discriminate].
Qed.

(** The function takes the step the relation allows. *)
Lemma line_step_scan_line (st : scan_state) (line : str) :
  line_step func_code func_name f st line (step st line).
Proof.
  destruct st as [q acc].
  destruct (startswith line QUESTION) eqn:HQ.
  - rewrite (scan_line_question _ _ HQ). now constructor.
  - destruct (startswith line ANSWER) eqn:HA.
    + destruct (truthy q) eqn:HT.
      * rewrite (scan_line_answer _ _ _ HQ HA HT).
        destruct (truthy_Some _ HT) as (s & -> & Hs). now constructor.
      * rewrite (scan_line_orphan (q, acc) _ HQ HT). now constructor.
    + rewrite (scan_line_other _ _ HQ HA). now apply step_other.
Qed.

(** The relation allows no other step. *)
Lemma line_step_functional (st st' : scan_state) (line : str) :
  line_step func_code func_name f st line st' -> st' = step st line.
Proof.
  intros H. inversion H; subst; symmetry.
  - now apply scan_line_question.
  - apply (scan_line_answer (Some q)); try assumption.
    destruct q; [congruence | reflexivity].
  - now apply (scan_line_orphan (current_q, qa_pairs)).
  - now apply scan_line_other.
Qed.

Lemma lines_run_fold (lines : list str) (st : scan_state) :
  lines_run func_code func_name f st lines (fold_left step lines st).
Proof.
  revert st; induction lines as [|l ls IH]; intros st; simpl.
  - constructor.
  - econstructor; [apply line_step_scan_line | apply IH].
Qed.

Lemma lines_run_functional (lines : list str) (st st' : scan_state) :
  lines_run func_code func_name f st lines st' -> st' = fold_left step lines st.
Proof.
  induction 1 as [|st line st1 rest st2 H1 _ IH]; [reflexivity|].
  simpl. now rewrite <- (line_step_functional _ _ _ H1).
Qed.

(** Every completion text has a run. *)
Lemma scans_scan_response (response : str) (qa_pairs : list QARecord) :
  scans func_code func_name f response qa_pairs
        (scan_response func_code func_name f response qa_pairs).
Proof.
  unfold scans, scan_response.
  exists (fst (fold_left step (split LF response) (None, qa_pairs))).
  rewrite <- surjective_pairing. apply lines_run_fold.
Qed.

(** The list only grows, and by records of this unit. *)
Lemma scan_line_extends (st : scan_state) (line : str) :
  exists new, snd (step st line) = snd st ++ new
              /\ Forall (fun r => code_snippet r = func_code) new.
Proof.
  destruct st as [q acc]. unfold step, scan_line.
  destruct (startswith line QUESTION); [exists []; now rewrite app_nil_r|].
  destruct (startswith line ANSWER); [|exists []; now rewrite app_nil_r].
  destruct (truthy q); [|exists []; now rewrite app_nil_r].
  eexists; split; [reflexivity|]. now repeat constructor.
Qed.

Lemma scan_lines_extend (lines : list str) (st : scan_state) :
  exists new, snd (fold_left step lines st) = snd st ++ new
              /\ Forall (fun r => code_snippet r = func_code) new.
Proof.
  revert st; induction lines as [|l ls IH]; intros st; simpl.
  - exists []. now rewrite app_nil_r.
  - destruct (IH (step st l)) as (n2 & E2 & F2).
    destruct (scan_line_extends st l) as (n1 & E1 & F1).
    exists (n1 ++ n2). rewrite E2, E1, app_assoc. split; [reflexivity|].
    apply Forall_app. now split.
Qed.

End ScanFacts.

(** C3 (as stated, refuted): the line [  question: A] of the claim is not
    taken as a question marker with body [A]; the scan leaves its state
    as it was, and an answer line after it is paired with nothing. *)
Lemma lowercase_indented_marker_ignored :
  scan_line Scenario.ADD_SOURCE (py "add") Scenario.add_file
            (None, []) (py "  question: A")
  = (None, [])
  /\ scan_line Scenario.ADD_SOURCE (py "add") Scenario.add_file
               (None, []) (py "  question: A")
     <> (Some (py "A"), [])
  /\ scan_response Scenario.ADD_SOURCE (py "add") Scenario.add_file
                   (py "  question: A" ++ [LF] ++ py "Answer: X") []
     = [].
Proof.
  split; [reflexivity | split; [discriminate | reflexivity]].
Qed.

(** C3 (amended): a line is taken as a marker line exactly by its first
    characters, compared as they are: a line that begins with the text
    [Question:] sets the pending question to the rest of the line with
    the surrounding white space stripped; a line that begins with
    neither [Question:] nor [Answer:], whatever its case or indentation,
    changes nothing. *)
Theorem marker_match_is_exact_prefix
    (func_code func_name : str) (f : CodeFile) (st : scan_state) (line : str) :
  ((exists rest, line = QUESTION ++ rest) ->
   scan_line func_code func_name f st line
   = (Some (strip (replace line QUESTION [])), snd st))
  /\ ((forall rest, line <> QUESTION ++ rest) ->
      (forall rest, line <> ANSWER ++ rest) ->
      scan_line func_code func_name f st line = st)
  /\ ((exists rest, line = ANSWER ++ rest) ->
      truthy (fst st) = true ->
      scan_line func_code func_name f st line
      = (None, snd st ++ [mk_record func_code func_name f (pending (fst st))
                                    (strip (replace line ANSWER []))])).
Proof.
  split; [|split].
  - intros H. apply scan_line_question. now apply startswith_prefix.
  - intros HQ HA. apply scan_line_other; now apply startswith_false.
  - intros [rest ->] HT. destruct st as [q acc].
    apply scan_line_answer; [reflexivity | apply startswith_app | exact HT].
Qed.

Lemma marker_match_is_exact_prefix_witness :
  scan_line Scenario.ADD_SOURCE (py "add") Scenario.add_file
            (None, []) (py "Question:   A  ")
  = (Some (py "A"), [])
  /\ scan_line Scenario.ADD_SOURCE (py "add") Scenario.add_file
               (Some (py "B"), []) (py "QUESTION: A")
     = (Some (py "B"), []).
Proof.
  split.
  - apply (proj1 (marker_match_is_exact_prefix
                    Scenario.ADD_SOURCE (py "add") Scenario.add_file
                    (None, []) (py "Question:   A  "))).
    exists (py "   A  "). reflexivity.
  - apply (proj1 (proj2 (marker_match_is_exact_prefix
                           Scenario.ADD_SOURCE (py "add") Scenario.add_file
                           (Some (py "B"), []) (py "QUESTION: A"))));
      intros rest H; discriminate H.
Defined.

(** C4 (as stated, refuted): a question marker with a blank body followed
    by an answer marker emits no record. *)
Lemma blank_question_emits_nothing :
  scan_response Scenario.ADD_SOURCE (py "add") Scenario.add_file
                (py "Question:   " ++ [LF] ++ py "Answer: X") []
  = []
  /\ scan_response Scenario.ADD_SOURCE (py "add") Scenario.add_file
                   (py "Question:" ++ [LF] ++ py "Answer: X") []
     = [].
Proof. split; reflexivity. Qed.

(** C4 (amended): an answer marker whose body is empty or white space,
    met while a non-empty question is pending, emits a record with the
    empty answer; a question marker whose body is empty or white space
    leaves the empty string pending, which [if current_q:] takes as no
    question, so the next line, whatever it is, emits nothing. *)
Theorem blank_bodies
    (func_code func_name : str) (f : CodeFile) (ws : str) :
  all_space ws ->
  (forall q acc, q <> [] ->
     scan_line func_code func_name f (Some q, acc) (ANSWER ++ ws)
     = (None, acc ++ [mk_record func_code func_name f q []]))
  /\ (forall st,
        scan_line func_code func_name f st (QUESTION ++ ws) = (Some [], snd st))
  /\ (forall st line,
        snd (scan_line func_code func_name f
               (scan_line func_code func_name f st (QUESTION ++ ws)) line)
        = snd st).
Proof.
  intros Hws.
  assert (HQ : forall st, scan_line func_code func_name f st (QUESTION ++ ws)
                          = (Some [], snd st)).
  { intros st. rewrite scan_line_question by apply startswith_app.
    rewrite replace_question_once
      by (apply all_space_not_In; [reflexivity | exact Hws]).
    now rewrite strip_all_space. }
  split; [|split].
  - intros q acc Hq.
    rewrite scan_line_answer;
      [| reflexivity | apply startswith_app | destruct q; [congruence | reflexivity] ].
    rewrite replace_answer_once
      by (apply all_space_not_In; [reflexivity | exact Hws]).
    now rewrite strip_all_space.
  - exact HQ.
  - intros st line. rewrite HQ.
    destruct (startswith line QUESTION) eqn:E.
    + now rewrite scan_line_question.
    + now rewrite scan_line_orphan.
Qed.

Lemma blank_bodies_witness :
  scan_line Scenario.ADD_SOURCE (py "add") Scenario.add_file
            (Some (py "What?"), []) (py "Answer:   ")
  = (None, [mk_record Scenario.ADD_SOURCE (py "add") Scenario.add_file
                      (py "What?") []]).
Proof.
  apply (proj1 (blank_bodies Scenario.ADD_SOURCE (py "add") Scenario.add_file
                             (py "   ") ltac:(repeat constructor))
               (py "What?") []).
  discriminate.
Defined.

(** C5: the text [Question: A], [Question: B], [Answer: X] on three lines
    gives exactly one record, whose question is [B] and whose answer is
    [X]; in general the state after a question line does not depend on
    the question that was pending before it, and the scan holds one
    optional pending question. *)
Theorem pending_question_overwritten
    (func_code func_name : str) (f : CodeFile) :
  (exists r,
     scan_response func_code func_name f
       (py "Question: A" ++ [LF] ++ py "Question: B" ++ [LF] ++ py "Answer: X") []
     = [r]
     /\ question r = py "B"
     /\ answer r = py "X")
  /\ (forall line q1 q2 acc,
        startswith line QUESTION = true ->
        scan_line func_code func_name f (q1, acc) line
        = scan_line func_code func_name f (q2, acc) line).
Proof.
  split.
  - eexists. split; [reflexivity|]. split; reflexivity.
  - intros line q1 q2 acc H. now rewrite !scan_line_question.
Qed.

Lemma pending_question_overwritten_witness :
  scan_line Scenario.ADD_SOURCE (py "add") Scenario.add_file
            (Some (py "A"), []) (py "Question: B")
  = scan_line Scenario.ADD_SOURCE (py "add") Scenario.add_file
              (None, []) (py "Question: B").
Proof.
  apply (proj2 (pending_question_overwritten
                  Scenario.ADD_SOURCE (py "add") Scenario.add_file)).
  reflexivity.
Defined.

(** C9: the scan is deterministic: two runs over the same completion
    text, started with the same list, end with the same list of records,
    in the same order, which is the list the function computes. *)
Theorem scan_deterministic
    (func_code func_name : str) (f : CodeFile)
    (response : str) (qa_pairs out1 out2 : list QARecord) :
  scans func_code func_name f response qa_pairs out1 ->
  scans func_code func_name f response qa_pairs out2 ->
  out1 = out2
  /\ out1 = scan_response func_code func_name f response qa_pairs.
Proof.
  intros [q1 H1] [q2 H2].
  apply lines_run_functional in H1. apply lines_run_functional in H2.
  unfold scan_response. rewrite <- H1.
  assert (E : (q1, out1) = (q2, out2)) by congruence.
  split; [congruence | reflexivity].
Qed.

Lemma scan_deterministic_witness :
  scans Scenario.ADD_SOURCE (py "add") Scenario.add_file Scenario.BACKEND_TEXT []
        [ mk_record Scenario.ADD_SOURCE (py "add") Scenario.add_file
            (py "What does it do?") (py "It adds two numbers.");
          mk_record Scenario.ADD_SOURCE (py "add") Scenario.add_file
            (py "What are its inputs?") (py "Two numbers.") ]
  /\ [ mk_record Scenario.ADD_SOURCE (py "add") Scenario.add_file
         (py "What does it do?") (py "It adds two numbers.");
       mk_record Scenario.ADD_SOURCE (py "add") Scenario.add_file
         (py "What are its inputs?") (py "Two numbers.") ]
     = scan_response Scenario.ADD_SOURCE (py "add") Scenario.add_file
                     Scenario.BACKEND_TEXT [].
Proof.
  assert (H : scans Scenario.ADD_SOURCE (py "add") Scenario.add_file
                    Scenario.BACKEND_TEXT []
                    [ mk_record Scenario.ADD_SOURCE (py "add") Scenario.add_file
                        (py "What does it do?") (py "It adds two numbers.");
                      mk_record Scenario.ADD_SOURCE (py "add") Scenario.add_file
                        (py "What are its inputs?") (py "Two numbers.") ])
    by (exists None;
        eapply run_line; [apply step_question; reflexivity|];
        eapply run_line; [apply step_answer; [reflexivity | reflexivity | discriminate]|];
        eapply run_line; [apply step_question; reflexivity|];
        eapply run_line; [apply step_answer; [reflexivity | reflexivity | discriminate]|];
        apply run_done).
  split; [exact H|].
  exact (proj2 (scan_deterministic _ _ _ _ _ _ _ H H)).
Defined.

(** ** Occurrences of a marker in a line *)

Lemma startswith_app_l (q t m : str) :
  startswith q m = true -> startswith (q ++ t) m = true.
Proof.
  intros H. apply startswith_prefix in H as [r ->]. rewrite <- app_assoc.
  apply startswith_app.
Qed.

(** A marker whose first character does not come back in it cannot begin
    inside the text before an occurrence and end inside the
    occurrence. *)
Lemma startswith_cut (c : codepoint) (old q t : str) :
  ~ In c old -> startswith (q ++ c :: t) old = true -> startswith q old = true.
Proof.
  revert q; induction old as [|x old IH]; intros q Hc H; [reflexivity|].
  destruct q as [|y q]; simpl in H |- *.
  - apply andb_true_iff in H as [H _]. apply N.eqb_eq in H. subst x.
    destruct Hc. now left.
  - apply andb_true_iff in H as [H1 H2]. rewrite H1. simpl.
    apply IH; [intros Hin; apply Hc; now right | exact H2].
Qed.

Lemma startswith_inside (c d : codepoint) (old q t : str) :
  ~ In c old ->
  startswith ((d :: q) ++ (c :: old) ++ t) (c :: old) = true ->
  startswith (d :: q) (c :: old) = true.
Proof.
  intros Hc H. simpl in H |- *. apply andb_true_iff in H as [H1 H2].
  rewrite H1. simpl. now apply (startswith_cut c old q (old ++ t)).
Qed.

Lemma contains_cons (d : codepoint) (a m : str) :
  contains (d :: a) m = false ->
  startswith (d :: a) m = false /\ contains a m = false.
Proof. cbn [contains]. intros H. now apply orb_false_iff in H. Qed.

(** Text without an occurrence is copied up to the next occurrence, which
    is replaced. *)
Lemma replace_from_free (c : codepoint) (old new a s : str) :
  ~ In c old ->
  contains a (c :: old) = false ->
  replace_from (c :: old) new 0 (a ++ (c :: old) ++ s)
  = a ++ new ++ replace_from (c :: old) new 0 s.
Proof.
  intros Hc. induction a as [|d a IH]; intros H.
  - apply replace_from_occurrence.
  - apply contains_cons in H as [H1 H2].
    change (replace_from (c :: old) new 0 ((d :: a) ++ (c :: old) ++ s))
      with (if startswith ((d :: a) ++ (c :: old) ++ s) (c :: old)
            then new ++ replace_from (c :: old) new (List.length (c :: old) - 1)
                          (a ++ (c :: old) ++ s)
            else d :: replace_from (c :: old) new 0 (a ++ (c :: old) ++ s)).
    destruct (startswith ((d :: a) ++ (c :: old) ++ s) (c :: old)) eqn:E.
    + apply startswith_inside in E; [congruence | exact Hc].
    + rewrite IH by exact H2. reflexivity.
Qed.

Lemma replace_from_free_end (c : codepoint) (old new a : str) :
  contains a (c :: old) = false ->
  replace_from (c :: old) new 0 a = a.
Proof.
  induction a as [|d a IH]; intros H; [reflexivity|].
  apply contains_cons in H as [H1 H2].
  change (replace_from (c :: old) new 0 (d :: a))
    with (if startswith (d :: a) (c :: old)
          then new ++ replace_from (c :: old) new (List.length (c :: old) - 1) a
          else d :: replace_from (c :: old) new 0 a).
  rewrite H1, IH by exact H2. reflexivity.
Qed.

(** Pieces without an occurrence, joined by the marker: deleting the
    marker leaves the pieces, one after the other. *)
Lemma replace_from_pieces (c : codepoint) (old : str) (pieces : list str) :
  ~ In c old ->
  Forall (fun a => contains a (c :: old) = false) pieces ->
  replace_from (c :: old) [] 0 (join (c :: old) pieces) = List.concat pieces.
Proof.
  intros Hc H. induction H as [|a rest Ha Hrest IH]; [reflexivity|].
  destruct rest as [|a' rest].
  - simpl. rewrite app_nil_r. now apply replace_from_free_end.
  - change (join (c :: old) (a :: a' :: rest))
      with (a ++ (c :: old) ++ join (c :: old) (a' :: rest)).
    rewrite replace_from_free by assumption. rewrite app_nil_l, IH. reflexivity.
Qed.

Lemma replace_pieces (c : codepoint) (old : str) (pieces : list str) :
  ~ In c old ->
  Forall (fun a => contains a (c :: old) = false) pieces ->
  replace ((c :: old) ++ join (c :: old) pieces) (c :: old) [] = List.concat pieces.
Proof.
  intros Hc H. unfold replace.
  now rewrite replace_from_occurrence, app_nil_l, replace_from_pieces.
Qed.

Lemma replace_question_pieces (pieces : list str) :
  Forall (fun a => contains a QUESTION = false) pieces ->
  replace (QUESTION ++ join QUESTION pieces) QUESTION [] = List.concat pieces.
Proof.
  apply (replace_pieces 81%N (py "uestion:") pieces).
  vm_compute. intuition discriminate.
Qed.

Lemma replace_answer_pieces (pieces : list str) :
  Forall (fun a => contains a ANSWER = false) pieces ->
  replace (ANSWER ++ join ANSWER pieces) ANSWER [] = List.concat pieces.
Proof.
  apply (replace_pieces 65%N (py "nswer:") pieces).
  vm_compute. intuition discriminate.
Qed.

(** The first occurrence of a marker in a text that has one. *)
Lemma first_occurrence (c : codepoint) (old s : str) :
  contains s (c :: old) = true ->
  exists a b, s = a ++ (c :: old) ++ b /\ contains a (c :: old) = false.
Proof.
  induction s as [|d s IH]; intros H; [discriminate|].
  destruct (startswith (d :: s) (c :: old)) eqn:E.
  - apply startswith_prefix in E as [b Hb]. exists [], b. now split.
  - cbn [contains] in H. rewrite E in H. cbn [orb] in H.
    destruct (IH H) as (a & b & -> & Ha). exists (d :: a), b. split; [reflexivity|].
    cbn [contains]. rewrite Ha, orb_false_r.
    destruct (startswith (d :: a) (c :: old)) eqn:E'; [|reflexivity].
    apply (startswith_app_l _ ((c :: old) ++ b)) in E'. simpl app in E'.
    simpl app in E. congruence.
Qed.

(** Every text is made of pieces without an occurrence, joined by the
    marker. *)
Lemma pieces_exist (c : codepoint) (old : str) (n : nat) (s : str) :
  List.length s <= n ->
  exists pieces, pieces <> []
                 /\ s = join (c :: old) pieces
                 /\ Forall (fun a => contains a (c :: old) = false) pieces.
Proof.
  revert s; induction n as [|n IH]; intros s Hn.
  - destruct s; [|simpl in Hn; lia]. exists [[]].
    split; [discriminate|]. split; [reflexivity|]. now repeat constructor.
  - destruct (contains s (c :: old)) eqn:E.
    + apply first_occurrence in E as (a & b & -> & Ha).
      destruct (IH b) as (pieces & Hne & -> & Hp).
      { rewrite !length_app in Hn. simpl in Hn. lia. }
      exists (a :: pieces). split; [discriminate|]. split.
      * destruct pieces as [|p rest]; [congruence | reflexivity].
      * now constructor.
    + exists [s]. split; [discriminate|]. split; [reflexivity|]. now repeat constructor.
Qed.

(** C10: the body of a marker line is the line with every occurrence of
    the marker deleted, wherever it stands, then stripped.  Every line
    that begins with [Question:] is that marker followed by pieces that
    hold no [Question:], joined by further markers, and the pending
    question becomes the pieces put together and stripped; likewise the
    answer of the record for a line that begins with [Answer:]. *)
Theorem marker_deleted_everywhere
    (func_code func_name : str) (f : CodeFile)
    (q : option str) (acc : list QARecord) :
  (forall pieces,
     Forall (fun a => contains a QUESTION = false) pieces ->
     scan_line func_code func_name f (q, acc) (QUESTION ++ join QUESTION pieces)
     = (Some (strip (List.concat pieces)), acc))
  /\ (forall pieces,
        Forall (fun a => contains a ANSWER = false) pieces ->
        truthy q = true ->
        exists r,
          scan_line func_code func_name f (q, acc) (ANSWER ++ join ANSWER pieces)
          = (None, acc ++ [r])
          /\ question r = pending q
          /\ answer r = strip (List.concat pieces))
  /\ (forall line,
        startswith line QUESTION = true ->
        exists pieces,
          line = QUESTION ++ join QUESTION pieces
          /\ Forall (fun a => contains a QUESTION = false) pieces
          /\ scan_line func_code func_name f (q, acc) line
             = (Some (strip (List.concat pieces)), acc))
  /\ (forall line,
        startswith line ANSWER = true ->
        truthy q = true ->
        exists pieces r,
          line = ANSWER ++ join ANSWER pieces
          /\ Forall (fun a => contains a ANSWER = false) pieces
          /\ scan_line func_code func_name f (q, acc) line = (None, acc ++ [r])
          /\ question r = pending q
          /\ answer r = strip (List.concat pieces)).
Proof.
  assert (Q : forall pieces,
             Forall (fun a => contains a QUESTION = false) pieces ->
             scan_line func_code func_name f (q, acc) (QUESTION ++ join QUESTION pieces)
             = (Some (strip (List.concat pieces)), acc)).
  { intros pieces H. rewrite scan_line_question by apply startswith_app.
    now rewrite replace_question_pieces. }
  assert (A : forall pieces,
             Forall (fun a => contains a ANSWER = false) pieces ->
             truthy q = true ->
             scan_line func_code func_name f (q, acc) (ANSWER ++ join ANSWER pieces)
             = (None, acc ++ [mk_record func_code func_name f (pending q)
                                        (strip (List.concat pieces))])).
  { intros pieces H HT.
    rewrite scan_line_answer; [| reflexivity | apply startswith_app | exact HT].
    now rewrite replace_answer_pieces. }
  split; [exact Q|]. split; [|split].
  - intros pieces H HT. eexists. split; [now apply A|]. now split.
  - intros line H. apply startswith_prefix in H as [rest ->].
    destruct (pieces_exist 81%N (py "uestion:") (List.length rest) rest (le_n _))
      as (pieces & _ & -> & Hp).
    exists pieces. split; [reflexivity|]. split; [exact Hp | now apply Q].
  - intros line H HT. apply startswith_prefix in H as [rest ->].
    destruct (pieces_exist 65%N (py "nswer:") (List.length rest) rest (le_n _))
      as (pieces & _ & -> & Hp).
    exists pieces. eexists. split; [reflexivity|]. split; [exact Hp|].
    split; [now apply A|]. now split.
Qed.

Lemma marker_deleted_everywhere_witness :
  scan_line Scenario.ADD_SOURCE (py "add") Scenario.add_file
            (None, []) (py "Question: what does Question: mean")
  = (Some (py "what does  mean"), [])
  /\ exists r,
       scan_line Scenario.ADD_SOURCE (py "add") Scenario.add_file
                 (Some (py "What?"), []) (py "Answer: A function Answer: x")
       = (None, [r])
       /\ question r = py "What?"
       /\ answer r = py "A function  x".
Proof.
  split.
  - apply (proj1 (marker_deleted_everywhere
                    Scenario.ADD_SOURCE (py "add") Scenario.add_file None [])
                 [py " what does "; py " mean"]).
    repeat constructor.
  - apply (proj1 (proj2 (marker_deleted_everywhere
                           Scenario.ADD_SOURCE (py "add") Scenario.add_file
                           (Some (py "What?")) []))
                 [py " A function "; py " x"]).
    + repeat constructor.
    + reflexivity.
Defined.

(** ** Runs of the response scan *)

Section MoreScanFacts.

Variables (func_code func_name : str) (f : CodeFile).

Lemma fold_without_questions (lines : list str) (q : option str)
    (acc : list QARecord) :
  Forall (fun l => question_line l = false) lines ->
  truthy q = false ->
  fold_left (scan_line func_code func_name f) lines (q, acc) = (q, acc).
Proof.
  induction 1 as [|l lines Hl _ IH]; intros Hq; cbn [fold_left]; [reflexivity|].
  rewrite (scan_line_orphan _ _ _ (q, acc) l Hl Hq).
  now apply IH.
Qed.

Lemma fold_without_answers (lines : list str) (q : option str)
    (acc : list QARecord) :
  Forall (fun l => answer_line l = false) lines ->
  snd (fold_left (scan_line func_code func_name f) lines (q, acc)) = acc.
Proof.
  intros H; revert q; induction H as [|l lines Hl _ IH]; intros q; cbn [fold_left];
    [reflexivity|].
  unfold answer_line in Hl.
  destruct (startswith l QUESTION) eqn:HQ.
  - rewrite (scan_line_question _ _ _ (q, acc) l HQ). apply IH.
  - simpl in Hl. rewrite (scan_line_other _ _ _ (q, acc) l HQ Hl). apply IH.
Qed.

Lemma fold_counts (lines : list str) (q : option str) (acc : list QARecord) :
  List.length (snd (fold_left (scan_line func_code func_name f) lines (q, acc)))
  + waiting (fst (fold_left (scan_line func_code func_name f) lines (q, acc)))
  <= List.length acc + waiting q + List.length (filter question_line lines)
  /\ List.length (snd (fold_left (scan_line func_code func_name f) lines (q, acc)))
     <= List.length acc + List.length (filter answer_line lines).
Proof.
  revert q acc; induction lines as [|l lines IH]; intros q acc.
  - simpl. lia.
  - cbn [fold_left filter]. unfold question_line at 1, answer_line at 1.
    destruct (startswith l QUESTION) eqn:HQ.
    + rewrite (scan_line_question _ _ _ (q, acc) l HQ). cbn [snd negb andb].
      destruct (IH (Some (strip (replace l QUESTION []))) acc) as [H1 H2].
      cbn [List.length]. split; [|exact H2].
      assert (waiting (Some (strip (replace l QUESTION []))) <= 1)
        by (unfold waiting; destruct (truthy _); lia).
      lia.
    + cbn [negb andb]. destruct (startswith l ANSWER) eqn:HA.
      * destruct (truthy q) eqn:HT.
        -- rewrite (scan_line_answer _ _ _ q acc l HQ HA HT).
           destruct (IH None (acc ++ [mk_record func_code func_name f (pending q)
                                        (strip (replace l ANSWER []))]))
             as [H1 H2].
           rewrite length_app in H1, H2. cbn [List.length] in *.
           unfold waiting at 2 in H1. unfold waiting at 2. rewrite HT.
           cbn [truthy] in H1. lia.
        -- rewrite (scan_line_orphan _ _ _ (q, acc) l HQ HT).
           destruct (IH q acc) as [H1 H2]. cbn [List.length]. lia.
      * rewrite (scan_line_other _ _ _ (q, acc) l HQ HA). apply IH.
Qed.

End MoreScanFacts.

(** A marker line whose body holds no further marker: deleting the
    marker leaves the body. *)
Lemma replace_free (c : codepoint) (old a : str) :
  contains a (c :: old) = false ->
  replace ((c :: old) ++ a) (c :: old) [] = a.
Proof.
  intros H. unfold replace.
  rewrite replace_from_occurrence, app_nil_l. now apply replace_from_free_end.
Qed.

Lemma replace_question_free (a : str) :
  contains a QUESTION = false -> replace (QUESTION ++ a) QUESTION [] = a.
Proof. apply (replace_free 81%N (py "uestion:") a). Qed.

Lemma replace_answer_free (a : str) :
  contains a ANSWER = false -> replace (ANSWER ++ a) ANSWER [] = a.
Proof. apply (replace_free 65%N (py "nswer:") a). Qed.

(** Splitting at a separator undoes joining with it, for pieces that do
    not contain it. *)
Lemma split_without_separator (sep : codepoint) (s : str) :
  ~ In sep s -> split sep s = [s].
Proof.
  induction s as [|c s IH]; intros H; [reflexivity|]. simpl.
  destruct (N.eqb_spec c sep) as [->|_]; [destruct H; now left|].
  rewrite IH by (intros Hin; apply H; now right). reflexivity.
Qed.

Lemma split_at_separator (sep : codepoint) (a b : str) :
  ~ In sep a -> split sep (a ++ sep :: b) = a :: split sep b.
Proof.
  induction a as [|c a IH]; intros H; simpl.
  - now rewrite N.eqb_refl.
  - destruct (N.eqb_spec c sep) as [->|_]; [destruct H; now left|].
    rewrite IH by (intros Hin; apply H; now right). reflexivity.
Qed.

Lemma split_join (sep : codepoint) (pieces : list str) :
  pieces <> [] ->
  Forall (fun s => ~ In sep s) pieces ->
  split sep (join [sep] pieces) = pieces.
Proof.
  intros Hne H. revert Hne.
  induction H as [|s rest Hs Hrest IH]; intros Hne; [now destruct Hne|].
  destruct rest as [|s' rest].
  - simpl. now apply split_without_separator.
  - change (join [sep] (s :: s' :: rest)) with (s ++ sep :: join [sep] (s' :: rest)).
    rewrite split_at_separator by exact Hs. f_equal. apply IH. discriminate.
Qed.

(** Stripping twice is stripping once. *)
Lemma lstrip_head (s : str) :
  lstrip s = [] \/ exists c t, lstrip s = c :: t /\ isspace c = false.
Proof.
  induction s as [|c s IH]; simpl; [now left|].
  destruct (isspace c) eqn:E; [exact IH|]. right. now exists c, s.
Qed.

Lemma lstrip_app_tail (u : str) (c : codepoint) :
  isspace c = false -> lstrip (u ++ [c]) = lstrip u ++ [c].
Proof.
  intros Hc. induction u as [|d u IH]; simpl; [now rewrite Hc|].
  now destruct (isspace d).
Qed.

Lemma rstrip_cons (c : codepoint) (t : str) :
  isspace c = false -> rstrip (c :: t) = c :: rstrip t.
Proof.
  intros Hc. unfold rstrip. simpl rev.
  rewrite lstrip_app_tail by exact Hc. rewrite rev_app_distr. reflexivity.
Qed.

Lemma lstrip_idempotent (s : str) : lstrip (lstrip s) = lstrip s.
Proof.
  destruct (lstrip_head s) as [->|(c & t & -> & Hc)]; [reflexivity|].
  simpl. now rewrite Hc.
Qed.

Lemma strip_idempotent (s : str) : strip (strip s) = strip s.
Proof.
  assert (L : lstrip (strip s) = strip s).
  { unfold strip. destruct (lstrip_head s) as [->|(c & t & -> & Hc)]; [reflexivity|].
    rewrite rstrip_cons by exact Hc. simpl. now rewrite Hc. }
  unfold strip at 1. rewrite L. unfold strip, rstrip.
  now rewrite rev_involutive, lstrip_idempotent.
Qed.

Lemma marker_has_no_line_feed (s : str) :
  ~ In LF s -> ~ In LF (QUESTION ++ s) /\ ~ In LF (ANSWER ++ s).
Proof.
  intros H. split; intros Hin; apply in_app_or in Hin as [Hin|Hin];
    try (now apply H); vm_compute in Hin; intuition discriminate.
Qed.

Section ScanRuns.

Variables (func_code func_name : str) (f : CodeFile).

(** A question line and its answer line, one after the other. *)
Lemma scan_plain_pair (qa : str * str) (q0 : option str) (acc : list QARecord) :
  plain_pair qa ->
  scan_line func_code func_name f
    (scan_line func_code func_name f (q0, acc) (QUESTION ++ fst qa))
    (ANSWER ++ snd qa)
  = (None, acc ++ [mk_record func_code func_name f (strip (fst qa)) (strip (snd qa))]).
Proof.
  intros (HQ & _ & Hne & HA & _).
  rewrite (scan_line_question _ _ _ (q0, acc)) by apply startswith_app.
  rewrite replace_question_free by exact HQ. cbn [snd].
  rewrite scan_line_answer;
    [| reflexivity | apply startswith_app
     | destruct (strip (fst qa)); [congruence | reflexivity] ].
  now rewrite replace_answer_free.
Qed.

Lemma fold_plain_pairs (pairs : list (str * str)) (acc : list QARecord) :
  Forall plain_pair pairs ->
  pairs <> [] ->
  forall q0,
    fold_left (scan_line func_code func_name f) (qa_lines pairs) (q0, acc)
    = (None,
       acc ++ map (fun qa => mk_record func_code func_name f
                               (strip (fst qa)) (strip (snd qa))) pairs).
Proof.
  intros H; revert acc; induction H as [|qa rest Hqa Hrest IH]; intros acc Hne q0;
    [congruence|].
  change (qa_lines (qa :: rest))
    with ((QUESTION ++ fst qa) :: (ANSWER ++ snd qa) :: qa_lines rest).
  cbn [fold_left map].
  rewrite (scan_plain_pair qa q0 acc Hqa).
  destruct rest as [|qa' rest]; [reflexivity|].
  rewrite IH by discriminate. now rewrite <- app_assoc.
Qed.

(** The pending question is always a stripped text, and so is every text
    of a record. *)
Lemma fold_records (lines : list str) (q : option str) (acc : list QARecord) :
  (forall s, q = Some s -> strip s = s) ->
  exists new,
    snd (fold_left (scan_line func_code func_name f) lines (q, acc)) = acc ++ new
    /\ Forall (record_of_unit func_code f) new.
Proof.
  revert q acc; induction lines as [|l lines IH]; intros q acc Hq; cbn [fold_left].
  - exists []. now rewrite app_nil_r.
  - destruct (startswith l QUESTION) eqn:HQ.
    + rewrite (scan_line_question _ _ _ (q, acc) l HQ). apply IH.
      intros s [= <-]. apply strip_idempotent.
    + destruct (startswith l ANSWER) eqn:HA.
      * destruct (truthy q) eqn:HT.
        -- rewrite (scan_line_answer _ _ _ q acc l HQ HA HT).
           destruct (IH None (acc ++ [mk_record func_code func_name f (pending q)
                                        (strip (replace l ANSWER []))]))
             as (new & E & F); [discriminate|].
           eexists. rewrite E, <- app_assoc. split; [reflexivity|].
           constructor; [|exact F].
           destruct (truthy_Some q HT) as (s & -> & Hs).
           unfold record_of_unit; cbn.
           repeat split; try reflexivity; try assumption.
           ++ now apply Hq.
           ++ apply strip_idempotent.
        -- rewrite (scan_line_orphan _ _ _ (q, acc) l HQ HT). now apply IH.
      * rewrite (scan_line_other _ _ _ (q, acc) l HQ HA). now apply IH.
Qed.

End ScanRuns.

(** ** The loops of [generate_qa_pairs] *)

Lemma for_each_app {S A} (xs ys : list A) (body : A -> M S unit) (st : S) :
  for_each (xs ++ ys) body st
  = match for_each xs body st with
    | (inl e, st') => (inl e, st')
    | (inr _, st') => for_each ys body st'
    end.
Proof.
  revert st; induction xs as [|x xs IH]; intros st; simpl; [reflexivity|].
  unfold bind. destruct (body x st) as [[e|u] st1]; [reflexivity | apply IH].
Qed.

Lemma str_eqb_eq (a b : str) : str_eqb a b = true -> a = b.
Proof.
  revert b; induction a as [|x a IH]; intros [|y b] H; simpl in H;
    try discriminate; [reflexivity|].
  apply andb_true_iff in H as [Hx Hab].
  apply N.eqb_eq in Hx. f_equal; [exact Hx | now apply IH].
Qed.

(** What [first_match] returns comes from a child under that field. *)
Lemma first_match_child {A} (m : Node -> option A) (field : str)
    (cs : list (option str * Node)) (a : A) :
  first_match m field cs = Some a ->
  exists c, In (Some field, c) cs /\ m c = Some a.
Proof.
  induction cs as [|[fld c] cs IH]; simpl; [discriminate|].
  destruct (field_is field fld) eqn:Hf.
  - destruct (m c) eqn:Hm.
    + intros [= <-]. exists c. split; [left | exact Hm].
      destruct fld as [g|]; simpl in Hf; [|discriminate].
      now rewrite (str_eqb_eq _ _ Hf).
    + intros H. destruct (IH H) as (c' & Hin & Hc). exists c'. now split; [right|].
  - intros H. destruct (IH H) as (c' & Hin & Hc). exists c'. now split; [right|].
Qed.

(** Every node the query of the script captures is the [identifier]
    under the field [name] of a [function_definition] node: the name of
    the function, not the definition. *)
Lemma func_query_captures_names (root n : Node) (c : str) :
  In (n, c) (captures FUNC_QUERY root) ->
  type n = py "identifier"
  /\ c = py "func_name"
  /\ exists d, In d (descendants root)
               /\ type d = py "function_definition"
               /\ In (Some (py "name"), n) (children d).
Proof.
  unfold captures. rewrite in_flat_map. intros (d & Hd & Hin).
  unfold FUNC_QUERY in Hin. cbn [match_pattern] in Hin.
  destruct (str_eqb (type d) (py "function_definition")) eqn:Hfd;
    [|destruct Hin].
  destruct (first_match _ (py "name") (children d)) as [here|] eqn:Hfm;
    [|destruct Hin].
  apply first_match_child in Hfm as (k & Hk & Hm).
  destruct (str_eqb (type k) (py "identifier")) eqn:Hid; [|discriminate].
  injection Hm as <-. rewrite app_nil_r in Hin.
  destruct Hin as [[= <- <-]|[]].
  split; [now apply str_eqb_eq | split; [reflexivity|]].
  exists d. split; [exact Hd | split; [now apply str_eqb_eq | exact Hk]].
Qed.

(** ** Printing *)

Lemma print_ok (line : str) (w : World) :
  printable line -> print line w = (inr tt, log w line).
Proof. intros [bs H]. unfold print. now rewrite H. Qed.

Lemma print_refused (line : str) (w : World) (e : exn) :
  utf8_encode line = inl e -> print line w = (inl e, w).
Proof. intros H. unfold print. now rewrite H. Qed.

Lemma print_outcome (line : str) (w : World) :
  (printable line /\ print line w = (inr tt, log w line))
  \/ (exists e, utf8_encode line = inl e /\ print line w = (inl e, w)).
Proof.
  unfold print, printable. destruct (utf8_encode line) as [e|bs].
  - right. now exists e.
  - left. split; [now exists bs | reflexivity].
Qed.

Lemma printable_app (a b : str) : printable a -> printable b -> printable (a ++ b).
Proof.
  intros [x Hx] Hb. revert x Hx. induction a as [|c a IH]; intros x Hx; [exact Hb|].
  unfold printable in *. cbn [app utf8_encode] in *.
  destruct (utf8_char c) as [bs|]; [|discriminate].
  destruct (utf8_encode a) as [e|rest]; [discriminate|].
  destruct (IH rest eq_refl) as [y Hy]. rewrite Hy. now eexists.
Qed.

Lemma printable_app_inv (a b : str) :
  printable (a ++ b) -> printable a /\ printable b.
Proof.
  induction a as [|c a IH]; intros [x Hx].
  - split; [now exists [] | now exists x].
  - unfold printable in *. cbn [app utf8_encode] in *.
    destruct (utf8_char c) as [bs|]; [|discriminate].
    destruct (utf8_encode (a ++ b)) as [e|rest] eqn:E; [discriminate|].
    destruct IH as [[y Hy] Hb]; [now exists rest|].
    rewrite Hy. split; [now eexists | exact Hb].
Qed.

Lemma printable_START : printable START.
Proof. eexists. vm_compute. reflexivity. Qed.

Lemma printable_COMPLETED : printable COMPLETED.
Proof. eexists. vm_compute. reflexivity. Qed.

Lemma printable_SAVED_LINE : printable SAVED_LINE.
Proof. eexists. vm_compute. reflexivity. Qed.

Lemma logged_log (w : World) (l : str) (ls : list str) :
  logged (log w l) ls = logged w (l :: ls).
Proof. unfold logged, log, with_stdout; cbn. now rewrite <- app_assoc. Qed.

Lemma logged_nil (w : World) : logged w [] = w.
Proof. destruct w. unfold logged, with_stdout; cbn. now rewrite app_nil_r. Qed.

(** ** The two loop bodies of [generate_qa_pairs] *)

(** The three ways through the body of the loop over captures. *)
Lemma unit_body_cases (model : Llama) (f : CodeFile) (tree : Tree)
    (cap : Node * str) (w : World) (acc : list QARecord) :
  match utf8_decode (node_text tree (fst cap)) with
  | inl e => unit_body model f tree cap (w, acc) = (inl e, (w, acc))
  | inr func_name =>
      match ask model (make_prompt (snippet f (fst cap))) w with
      | (inl e, w') =>
          unit_body model f tree cap (w, acc)
          = kept acc (print (unit_failure_line f func_name e) w')
      | (inr response, w') =>
          unit_body model f tree cap (w, acc)
          = (inr tt, (w', scan_response (snippet f (fst cap)) func_name f
                                        response acc))
      end
  end.
Proof.
  unfold unit_body, bind, pure_call, try_except, in_world, update, snippet, kept,
    unit_failure_line; cbn [fst snd].
  destruct (utf8_decode (node_text tree (fst cap))) as [e|fn]; [reflexivity|].
  destruct (ask model _ w) as [[e|r] w']; [|reflexivity].
  cbn [fst snd]. now destruct (print _ w').
Qed.

(** The ways through the body of the loop over files. *)
Lemma file_body_cases (G : namespace) (parser : Parser) (model : Llama)
    (f : CodeFile) (st : World * list QARecord) :
  match syntax_tree parser f with
  | inl e =>
      file_body G parser model f st
      = kept (snd st) (print (file_failure_line f e) (fst st))
  | inr tree =>
      match find_units G tree with
      | inl e =>
          file_body G parser model f st
          = kept (snd st) (print (file_failure_line f e) (fst st))
      | inr found =>
          match for_each found (unit_body model f tree) st with
          | (inl e, st') =>
              file_body G parser model f st
              = kept (snd st') (print (file_failure_line f e) (fst st'))
          | (inr _, st') => file_body G parser model f st = (inr tt, st')
          end
      end
  end.
Proof.
  unfold file_body, bind, pure_call, try_except, in_world, kept,
    file_failure_line; cbn [fst snd].
  destruct (syntax_tree parser f) as [e|tree]; [now destruct (print _ (fst st))|].
  destruct (find_units G tree) as [e|found]; [now destruct (print _ (fst st))|].
  destruct (for_each found (unit_body model f tree) st) as [[e|[]] st'];
    [now destruct (print _ (fst st')) | reflexivity].
Qed.

Lemma find_units_captures (G : namespace) (tree : Tree) (found : list (Node * str)) :
  find_units G tree = inr found -> found = captures FUNC_QUERY (root_node tree).
Proof.
  unfold find_units. destruct (load_global G "PY_LANGUAGE") as [e|obj]; [discriminate|].
  destruct obj; simpl; congruence.
Qed.

(** ** Where a record comes from *)

Lemma snd_kept {A L} (acc : list L) (x : result A * World) :
  snd (snd (kept acc x)) = acc.
Proof. reflexivity. Qed.

Lemma unit_body_records (model : Llama) (f : CodeFile) (tree : Tree)
    (cap : Node * str) (st : World * list QARecord) :
  exists new,
    snd (snd (unit_body model f tree cap st)) = snd st ++ new
    /\ Forall (record_of_unit (snippet f (fst cap)) f) new.
Proof.
  destruct st as [w acc].
  pose proof (unit_body_cases model f tree cap w acc) as H.
  destruct (utf8_decode (node_text tree (fst cap))) as [e|fn].
  - rewrite H. exists []. now rewrite app_nil_r.
  - destruct (ask model _ w) as [[e|r] w']; rewrite H.
    + exists []. rewrite snd_kept. now rewrite app_nil_r.
    + apply fold_records. discriminate.
Qed.

Lemma unit_loop_records (model : Llama) (f : CodeFile) (tree : Tree)
    (caps : list (Node * str)) (st : World * list QARecord) :
  exists new,
    snd (snd (for_each caps (unit_body model f tree) st)) = snd st ++ new
    /\ Forall (fun r => exists cap, In cap caps
                                    /\ record_of_unit (snippet f (fst cap)) f r) new.
Proof.
  revert st; induction caps as [|cap caps IH]; intros st; cbn [for_each].
  - exists []. now rewrite app_nil_r.
  - unfold bind.
    destruct (unit_body_records model f tree cap st) as (n1 & E1 & F1).
    destruct (unit_body model f tree cap st) as [[e|u] st1]; cbn [snd] in E1.
    + exists n1. split; [exact E1|].
      eapply Forall_impl; [|exact F1]. intros r Hr. exists cap. now split; [left|].
    + destruct (IH st1) as (n2 & E2 & F2).
      exists (n1 ++ n2). rewrite E2, E1, app_assoc. split; [reflexivity|].
      apply Forall_app. split.
      * eapply Forall_impl; [|exact F1]. intros r Hr. exists cap. now split; [left|].
      * eapply Forall_impl; [|exact F2]. intros r (c & Hc & Hr).
        exists c. now split; [right|].
Qed.

Lemma file_body_records (G : namespace) (parser : Parser) (model : Llama)
    (f : CodeFile) (st : World * list QARecord) :
  exists new,
    snd (snd (file_body G parser model f st)) = snd st ++ new
    /\ Forall (captured_in parser f) new.
Proof.
  pose proof (file_body_cases G parser model f st) as H.
  destruct (syntax_tree parser f) as [e|tree] eqn:Htree;
    [rewrite H, snd_kept; exists []; now rewrite app_nil_r|].
  destruct (find_units G tree) as [e|found] eqn:Hfound;
    [rewrite H, snd_kept; exists []; now rewrite app_nil_r|].
  apply find_units_captures in Hfound.
  destruct (unit_loop_records model f tree found st) as (new & E & F).
  assert (F' : Forall (captured_in parser f) new).
  { eapply Forall_impl; [|exact F]. intros r ([n c] & Hin & Hr).
    exists tree, n, c. subst found.
    split; [exact Htree|]. split; [exact Hin | exact Hr]. }
  destruct (for_each found (unit_body model f tree) st) as [[e|u] st'];
    rewrite H; [rewrite snd_kept|]; exists new; now split.
Qed.

Lemma file_loop_records (G : namespace) (parser : Parser) (model : Llama)
    (files : list CodeFile) (st : World * list QARecord) :
  exists new,
    snd (snd (for_each files (file_body G parser model) st)) = snd st ++ new
    /\ Forall (fun r => exists f, In f files /\ captured_in parser f r) new.
Proof.
  revert st; induction files as [|f files IH]; intros st; cbn [for_each].
  - exists []. now rewrite app_nil_r.
  - unfold bind.
    destruct (file_body_records G parser model f st) as (n1 & E1 & F1).
    destruct (file_body G parser model f st) as [[e|u] st1]; cbn [snd] in E1.
    + exists n1. split; [exact E1|].
      eapply Forall_impl; [|exact F1]. intros r Hr. exists f. now split; [left|].
    + destruct (IH st1) as (n2 & E2 & F2). exists (n1 ++ n2).
      rewrite E2, E1, app_assoc. split; [reflexivity|].
      apply Forall_app. split.
      * eapply Forall_impl; [|exact F1]. intros r Hr. exists f. now split; [left|].
      * eapply Forall_impl; [|exact F2]. intros r (g & Hg & Hr).
        exists g. now split; [right|].
Qed.

(** ** The list of records as an accumulator *)

Lemma scan_line_prefix (func_code func_name : str) (f : CodeFile)
    (q : option str) (acc : list QARecord) (l : str) :
  scan_line func_code func_name f (q, acc) l
  = (fst (scan_line func_code func_name f (q, []) l),
     acc ++ snd (scan_line func_code func_name f (q, []) l)).
Proof.
  unfold scan_line.
  destruct (startswith l QUESTION); [now rewrite app_nil_r|].
  destruct (startswith l ANSWER); [|now rewrite app_nil_r].
  destruct (truthy q); [reflexivity | now rewrite app_nil_r].
Qed.

Lemma fold_prefix (func_code func_name : str) (f : CodeFile)
    (lines : list str) (q : option str) (acc : list QARecord) :
  fold_left (scan_line func_code func_name f) lines (q, acc)
  = (fst (fold_left (scan_line func_code func_name f) lines (q, [])),
     acc ++ snd (fold_left (scan_line func_code func_name f) lines (q, []))).
Proof.
  revert q acc; induction lines as [|l lines IH]; intros q acc; cbn [fold_left].
  - now rewrite app_nil_r.
  - rewrite (scan_line_prefix _ _ _ q acc l).
    destruct (scan_line func_code func_name f (q, []) l) as [q1 n1]. cbn [fst snd].
    rewrite (IH q1 (acc ++ n1)), (IH q1 n1). cbn [fst snd].
    now rewrite app_assoc.
Qed.

Lemma scan_response_prefix (func_code func_name : str) (f : CodeFile)
    (response : str) (acc : list QARecord) :
  scan_response func_code func_name f response acc
  = acc ++ scan_response func_code func_name f response [].
Proof. unfold scan_response. now rewrite fold_prefix. Qed.

Lemma prefixed_prefixed {A} (a b : list QARecord)
    (x : result A * (World * list QARecord)) :
  prefixed a (prefixed b x) = prefixed (a ++ b) x.
Proof. destruct x as [r [w l]]. unfold prefixed; cbn. now rewrite app_assoc. Qed.

Lemma prefixed_kept {A} (acc : list QARecord) (x : result A * World) :
  prefixed acc (kept [] x) = kept acc x.
Proof. unfold prefixed, kept; cbn. now rewrite app_nil_r. Qed.

(** A loop whose body only appends to the list only appends to it. *)
Lemma for_each_prefix {A} (body : A -> M (World * list QARecord) unit) (xs : list A) :
  (forall x w acc, body x (w, acc) = prefixed acc (body x (w, []))) ->
  forall w acc, for_each xs body (w, acc) = prefixed acc (for_each xs body (w, [])).
Proof.
  intros Hbody. induction xs as [|x xs IH]; intros w acc; cbn [for_each].
  - unfold ret, prefixed; cbn. now rewrite app_nil_r.
  - unfold bind. rewrite (Hbody x w acc).
    destruct (body x (w, [])) as [[e|u] [w1 n1]]; unfold prefixed at 1; cbn [fst snd].
    + reflexivity.
    + rewrite (IH w1 (acc ++ n1)), (IH w1 n1). now rewrite prefixed_prefixed.
Qed.

Lemma unit_body_prefix (model : Llama) (f : CodeFile) (tree : Tree)
    (cap : Node * str) (w : World) (acc : list QARecord) :
  unit_body model f tree cap (w, acc)
  = prefixed acc (unit_body model f tree cap (w, [])).
Proof.
  pose proof (unit_body_cases model f tree cap w acc) as H.
  pose proof (unit_body_cases model f tree cap w []) as H0.
  destruct (utf8_decode (node_text tree (fst cap))) as [e|fn].
  - rewrite H, H0. unfold prefixed; cbn. now rewrite app_nil_r.
  - destruct (ask model _ w) as [[e|r] w']; rewrite H, H0.
    + now rewrite prefixed_kept.
    + unfold prefixed; cbn. now rewrite scan_response_prefix.
Qed.

Lemma file_body_prefix (G : namespace) (parser : Parser) (model : Llama)
    (f : CodeFile) (w : World) (acc : list QARecord) :
  file_body G parser model f (w, acc)
  = prefixed acc (file_body G parser model f (w, [])).
Proof.
  pose proof (file_body_cases G parser model f (w, acc)) as H.
  pose proof (file_body_cases G parser model f (w, [])) as H0.
  destruct (syntax_tree parser f) as [e|tree].
  - rewrite H, H0. cbn [fst snd]. now rewrite prefixed_kept.
  - destruct (find_units G tree) as [e|found].
    + rewrite H, H0. cbn [fst snd]. now rewrite prefixed_kept.
    + rewrite (for_each_prefix (unit_body model f tree) found
                 (unit_body_prefix model f tree) w acc) in H.
      destruct (for_each found (unit_body model f tree) (w, []))
        as [[e|u] [w1 n1]]; unfold prefixed in H at 1; cbn [fst snd] in H, H0;
        rewrite H, H0.
      * unfold prefixed, kept; cbn. reflexivity.
      * reflexivity.
Qed.

Lemma file_loop_prefix (G : namespace) (parser : Parser) (model : Llama)
    (files : list CodeFile) (w : World) (acc : list QARecord) :
  for_each files (file_body G parser model) (w, acc)
  = prefixed acc (for_each files (file_body G parser model) (w, [])).
Proof. apply for_each_prefix. apply file_body_prefix. Qed.

Lemma generate_app (G : namespace) (parser : Parser) (model : Llama)
    (first_files more_files : list CodeFile) (w : World) :
  generate_qa_pairs G parser model (first_files ++ more_files) w
  = match generate_qa_pairs G parser model first_files w with
    | (inl e, w1) => (inl e, w1)
    | (inr qs1, w1) =>
        match generate_qa_pairs G parser model more_files w1 with
        | (inl e, w2) => (inl e, w2)
        | (inr qs2, w2) => (inr (qs1 ++ qs2), w2)
        end
    end.
Proof.
  unfold generate_qa_pairs, returning_list. rewrite for_each_app.
  destruct (for_each first_files (file_body G parser model) (w, []))
    as [[e|u] [w1 qs1]]; [reflexivity|].
  rewrite (file_loop_prefix G parser model more_files w1 qs1).
  destruct (for_each more_files (file_body G parser model) (w1, []))
    as [[e|u2] [w2 qs2]]; reflexivity.
Qed.



(** ** The module as it is written *)

Lemma shipped_query_fails (tree : Tree) : find_units module_globals tree = inl NAME_ERROR.
Proof. reflexivity. Qed.

Lemma shipped_file_body (parser : Parser) (model : Llama) (f : CodeFile)
    (w : World) (acc : list QARecord) :
  file_body module_globals parser model f (w, acc)
  = kept acc (print (shipped_line parser f) w).
Proof.
  pose proof (file_body_cases module_globals parser model f (w, acc)) as H.
  unfold shipped_line.
  destruct (syntax_tree parser f) as [e|tree]; [exact H|].
  rewrite shipped_query_fails in H. exact H.
Qed.

(** Whatever can be printed, the list stays as it was, no request is
    sent and no file is touched. *)
Lemma shipped_loop_keeps (parser : Parser) (model : Llama) (files : list CodeFile)
    (w : World) (acc : list QARecord) :
  exists r w',
    for_each files (file_body module_globals parser model) (w, acc) = (r, (w', acc))
    /\ calls w' = calls w /\ fs w' = fs w.
Proof.
  revert w; induction files as [|f files IH]; intros w; cbn [for_each].
  - exists (inr tt), w. now repeat split.
  - unfold bind. rewrite shipped_file_body. unfold kept.
    destruct (print_outcome (shipped_line parser f) w) as [[_ E]|(e & _ & E)];
      rewrite E; cbn [fst snd].
    + destruct (IH (log w (shipped_line parser f))) as (r & w' & E' & C & F).
      exists r, w'. now repeat split.
    + exists (inl e), w. now repeat split.
Qed.

Lemma shipped_loop_printable (parser : Parser) (model : Llama)
    (files : list CodeFile) (w : World) (acc : list QARecord) :
  Forall printable (map (shipped_line parser) files) ->
  for_each files (file_body module_globals parser model) (w, acc)
  = (inr tt, (logged w (map (shipped_line parser) files), acc)).
Proof.
  revert w; induction files as [|f files IH]; intros w H; cbn [for_each map].
  - now rewrite logged_nil.
  - cbn [map] in H. inversion H as [|l ls Hl Hls]; subst.
    unfold bind. rewrite shipped_file_body, (print_ok _ w Hl). cbn [kept fst snd].
    rewrite IH by exact Hls. now rewrite logged_log.
Qed.




(** With [PY_LANGUAGE] bound as a global of the module the units are
    reached, and the snippet is the slice at the range of the name: [add]
    for the function of the scenario. *)
Lemma patched_run_carries_the_name :
  fst (generate_qa_pairs Scenario.patched_globals Scenario.parser Scenario.backend
         [Scenario.add_file] Scenario.world)
  = inr Scenario.patched_records
  /\ map code_snippet Scenario.patched_records = [ py "add"; py "add" ].
Proof. split; vm_compute; reflexivity. Qed.

(** The offsets of a node count bytes of the encoded source, and the
    script uses them as indices into the text: after a character of more
    than one byte the slice is shifted. *)
Lemma byte_offsets_taken_as_character_indices :
  fst (generate_qa_pairs Scenario.patched_globals Scenario.parser Scenario.backend
         [Scenario.accent_file] Scenario.world)
  = inr [ mk_record (py "(") (py "f") Scenario.accent_file
            (py "What does it do?") (py "It adds two numbers.");
          mk_record (py "(") (py "f") Scenario.accent_file
            (py "What are its inputs?") (py "Two numbers.") ].
Proof. vm_compute. reflexivity. Qed.

(** C2 (the code departs from the claim): on the repository with the one
    file [add.py] and the backend of the scenario, the run reads the
    file, fails on it with a [NameError] for [PY_LANGUAGE], and ends with
    no record where the claim has two. *)
Theorem end_to_end_scenario_yields_no_record :
  collect Scenario.lib Scenario.world
  = (inr [],
     log (log Scenario.world
              (py "Extracted file: [USER_HOME]/Documents/flask/add.py"))
         (py "Error processing file add.py: name 'PY_LANGUAGE' is not defined"))
  /\ fst (main Scenario.lib Scenario.world) = inr tt
  /\ fst (extract_code REPO_PATH FILE_EXTENSION Scenario.world)
     = inr [ Scenario.add_file ].
Proof.
  split; [vm_compute; reflexivity|].
  split; vm_compute; reflexivity.
Qed.

(** ** The loop of [extract_code] *)

Lemma rglob_matches (base : fspath) (pattern : str) (w : World) :
  rglob base pattern w = (inr (matches w base pattern), w).
Proof. reflexivity. Qed.

Lemma matches_below (w : World) (base : fspath) (pattern : str) (p : fspath) :
  In p (matches w base pattern) ->
  exists rel, strip_prefix base p = Some rel /\ rel <> []
              /\ glob w pattern rel = true.
Proof.
  unfold matches. intros Hin.
  apply in_flat_map in Hin as ([q en] & _ & Hq). cbn [fst] in Hq.
  destruct (strip_prefix base q) as [[|c rel]|] eqn:E; try destruct Hq.
  destruct (glob w pattern (c :: rel)) eqn:Hg; [|destruct Hq].
  destruct Hq as [->|[]]. exists (c :: rel).
  split; [exact E|]. split; [discriminate | exact Hg].
Qed.

Lemma read_text_result (p : fspath) (w : World) :
  read_text p w = (read_result (fs w) p, w).
Proof. reflexivity. Qed.

Lemma relative_to_strip (p base rel : fspath) :
  strip_prefix base p = Some rel -> relative_to p base = inr rel.
Proof. intros H. unfold relative_to. now rewrite H. Qed.

(** The ways through the body of the loop over the files found. *)
Lemma read_body_cases (base file_path rel : fspath) (w : World)
    (acc : list CodeFile) :
  strip_prefix base file_path = Some rel ->
  read_body base file_path (w, acc)
  = match read_result (fs w) file_path with
    | inl e => kept acc (print (read_failure_line rel e) w)
    | inr code =>
        match print (py "Extracted file: [USER_HOME]/Documents/flask/"
                       ++ Path_str rel) w with
        | (inr _, w') =>
            (inr tt,
             (w', acc ++ [ {| path := Path_str rel; content := code;
                              repo := name base |} ]))
        | (inl e, w') =>
            kept (acc ++ [ {| path := Path_str rel; content := code;
                              repo := name base |} ])
                 (print (read_failure_line rel e) w')
        end
    end.
Proof.
  intros Hrel. apply relative_to_strip in Hrel.
  unfold read_body, bind, try_except, in_world, pure_call, extend, kept,
    read_failure_line; cbn [fst snd].
  rewrite read_text_result, Hrel.
  destruct (read_result (fs w) file_path) as [e|code]; cbn [fst snd].
  - now destruct (print _ w).
  - destruct (print _ w) as [[e|u] w']; cbn [fst snd].
    + now destruct (print _ w').
    + now destruct u.
Qed.



(** The list of dictionaries, whether or not the lines can be printed. *)
Lemma read_body_list (base p rel : fspath) (w : World) (acc : list CodeFile) :
  strip_prefix base p = Some rel ->
  exists new,
    snd (snd (read_body base p (w, acc))) = acc ++ new
    /\ Forall (fun cf => path cf = Path_str rel /\ repo cf = name base) new.
Proof.
  intros Hrel. rewrite (read_body_cases base p rel w acc Hrel).
  destruct (read_result (fs w) p) as [e|code].
  - exists []. rewrite snd_kept. now rewrite app_nil_r.
  - destruct (print _ w) as [[e|u] w']; [rewrite snd_kept|]; eexists;
      (split; [reflexivity|]); now repeat constructor.
Qed.

Lemma extract_code_found (repo_path ext : str) (w : World) :
  fs_lookup (fs w) (Path repo_path) <> None ->
  extract_code repo_path ext w
  = match for_each (matches w (Path repo_path) (py "*" ++ ext))
            (read_body (Path repo_path)) (w, []) with
    | (inl e, (w', _)) => (inl e, w')
    | (inr _, (w', l)) => (inr l, w')
    end.
Proof.
  intros H. unfold extract_code, returning_list, bind, in_world, exists_.
  cbn [fst snd].
  destruct (fs_lookup (fs w) (Path repo_path)) as [present|]; [|congruence].
  cbn [negb fst snd]. rewrite rglob_matches. reflexivity.
Qed.





(** ** Initialization *)


Lemma initialize_model_present (lib : Libs) (p : str) (n : Z) (w : World) :
  p <> [] ->
  fs_lookup (fs w) (Path p) <> None ->
  initialize_model lib p n w = (Llama_init lib p n (fs w), w).
Proof.
  intros Hp H. unfold initialize_model, bind, os_path_exists, exists_.
  destruct p; [congruence|].
  destruct (fs_lookup (fs w) (Path _)); [reflexivity | congruence].
Qed.

(** [initialize_parser] gives the parser that [set_language] leaves, and
    wraps every exception of its three calls in a [RuntimeError]. *)
Lemma initialize_parser_cases (lib : Libs) (w : World) :
  initialize_parser lib w
  = (match parser_setup lib with
     | inl e => inl (PARSER_FAILED e)
     | inr parser => inr parser
     end, w).
Proof.
  unfold initialize_parser, parser_setup, try_except, bind, pure_call, ret, raise,
    PARSER_FAILED.
  destruct (Parser_new lib) as [e|p]; [reflexivity|].
  destruct (python_language lib) as [e|l]; [reflexivity|].
  destruct (set_language lib p l) as [e|p']; reflexivity.
Qed.

Lemma extract_code_missing (p ext : str) (w : World) :
  fs_lookup (fs w) (Path p) = None ->
  extract_code p ext w = (inl REPO_MISSING, w).
Proof.
  intros H.
  unfold extract_code, returning_list, bind, in_world, exists_, raise.
  cbn [fst snd]. now rewrite H.
Qed.

(** The ways [main] ends. *)
Lemma main_cases (lib : Libs) (w : World) :
  main lib w
  = match collect lib (log w START) with
    | (inl e, w1) => raised_again e w1
    | (inr qs, w1) =>
        match save_qa_pairs lib qs OUTPUT_PATH w1 with
        | (inl e, w2) => raised_again e w2
        | (inr _, w2) => (inr tt, log w2 COMPLETED)
        end
    end.
Proof.
  unfold main, bind, try_except, raise, raised_again.
  change (print (py "Starting QA pair generation...") w) with (print START w).
  rewrite (print_ok START w printable_START).
  destruct (collect lib (log w START)) as [[e|qs] w1].
  - change (py "Error in main execution: " ++ message e) with (main_error_line e).
    now destruct (print (main_error_line e) w1) as [[e'|u] w2].
  - destruct (save_qa_pairs lib qs OUTPUT_PATH w1) as [[e|u] w2].
    + change (py "Error in main execution: " ++ message e) with (main_error_line e).
      now destruct (print (main_error_line e) w2) as [[e'|u] w3].
    + change (print (py "QA pair generation completed.") w2) with (print COMPLETED w2).
      now rewrite (print_ok COMPLETED w2 printable_COMPLETED).
Qed.

(** [main] prints the error of its [try] block and raises it again. *)
Lemma main_stops (lib : Libs) (w w' : World) (e : exn) :
  collect lib (log w START) = (inl e, w') ->
  printable (main_error_line e) ->
  main lib w = (inl e, log w' (main_error_line e)).
Proof.
  intros H Hp. rewrite main_cases, H. unfold raised_again.
  now rewrite (print_ok _ w' Hp).
Qed.



(** ** The dataset sink *)

Lemma str_eqb_refl (a : str) : str_eqb a a = true.
Proof. induction a as [|x a IH]; simpl; [reflexivity|]. now rewrite N.eqb_refl. Qed.

Lemma fspath_eqb_refl (p : fspath) : fspath_eqb p p = true.
Proof. induction p as [|a p IH]; simpl; [reflexivity|]. now rewrite str_eqb_refl. Qed.

Lemma fs_find_app (a b : filesystem) (p : fspath) :
  fs_find (a ++ b) p
  = match fs_find a p with Some e => Some e | None => fs_find b p end.
Proof.
  induction a as [|[q e] a IH]; simpl; [reflexivity|].
  now destruct (fspath_eqb q p).
Qed.

Lemma created_is_directory (w : World) (p : fspath) :
  fs_lookup (fs w) p = None -> fs_lookup (fs (created w p)) p = Some Dir.
Proof.
  destruct p as [|a p]; [discriminate|]. unfold fs_lookup, created; cbn [fs with_fs].
  intros H. rewrite fs_find_app, H. simpl fs_find.
  now rewrite str_eqb_refl, fspath_eqb_refl.
Qed.

Lemma mkdir_present (w : World) (p : fspath) :
  fs_lookup (fs w) p = Some Dir -> mkdir_exist_ok p w = (inr tt, w).
Proof. intros H. unfold mkdir_exist_ok. now rewrite H. Qed.

Lemma mkdir_absent (w : World) (p : fspath) :
  fs_lookup (fs w) p = None ->
  fs_lookup (fs w) (parent p) = Some Dir ->
  mkdir_denied w p = None ->
  mkdir_exist_ok p w = (inr tt, created w p).
Proof. intros H1 H2 H3. unfold mkdir_exist_ok. now rewrite H1, H2, H3. Qed.

Lemma mkdir_refused (w : World) (p : fspath) (e : exn) :
  fs_lookup (fs w) p = None ->
  fs_lookup (fs w) (parent p) = Some Dir ->
  mkdir_denied w p = Some e ->
  mkdir_exist_ok p w = (inl e, w).
Proof. intros H1 H2 H3. unfold mkdir_exist_ok. now rewrite H1, H2, H3. Qed.

(** What [save_qa_pairs] does once the directory is there. *)
Lemma save_after_mkdir (lib : Libs) (rows : list QARecord) (output_dir : str)
    (w w1 : World) :
  mkdir_exist_ok (Path output_dir) w = (inr tt, w1) ->
  save_qa_pairs lib rows output_dir w
  = match to_json lib rows (os_path_join output_dir (py "qa_pairs.json")) (fs w1) with
    | inl e =>
        print (save_failure_line (os_path_join output_dir (py "qa_pairs.json")) e) w1
    | inr files => (inr tt, log (written w1 files) SAVED_LINE)
    end.
Proof.
  intros H. unfold save_qa_pairs, bind, try_except. rewrite H.
  destruct (to_json lib rows _ (fs w1)) as [e|files]; [reflexivity|].
  change (print (py "QA pairs saved to [USER_HOME]/Documents/output_data/qa_pairs.json"))
    with (print SAVED_LINE).
  now rewrite (print_ok SAVED_LINE _ printable_SAVED_LINE).
Qed.

Lemma save_mkdir_raises (lib : Libs) (rows : list QARecord) (output_dir : str)
    (w w1 : World) (e : exn) :
  mkdir_exist_ok (Path output_dir) w = (inl e, w1) ->
  save_qa_pairs lib rows output_dir w = (inl e, w1).
Proof. intros H. unfold save_qa_pairs, bind. now rewrite H. Qed.

(** C8 (as stated, refuted): with a regular file where the output
    directory is to be, [save_qa_pairs] raises [FileExistsError], and
    [main] ends with that exception. *)
Lemma save_raises_when_output_path_is_a_file :
  save_qa_pairs Scenario.lib [] OUTPUT_PATH Scenario.world_output_is_file
  = (inl {| class := FileExistsError;
            message := py "File exists: C:/Users/cym/Documents/output_data" |},
     Scenario.world_output_is_file)
  /\ fst (main Scenario.lib Scenario.world_output_is_file)
     = inl {| class := FileExistsError;
              message := py "File exists: C:/Users/cym/Documents/output_data" |}.
Proof. split; vm_compute; reflexivity. Qed.

(** C8 (amended): when the output directory exists it is left as it is,
    and when it is absent under an existing directory and the operating
    system lets it be made it is created; in both cases a write that
    succeeds is followed by the line that says so, and a write that fails
    is printed with the path of the target file, [save_qa_pairs]
    returning normally when that line can be printed and raising the
    error of [print] when it cannot.  When the output path is a regular
    file, when its parent is missing or not a directory, or when the
    operating system refuses to create the directory, the error of
    [mkdir] leaves [save_qa_pairs]: the call is outside the [try]. *)
Theorem save_contains_write_failures
    (lib : Libs) (rows : list QARecord) (output_dir : str) (w : World) :
  (forall w1,
     fs_lookup (fs w) (Path output_dir) = Some Dir /\ w1 = w
     \/ (fs_lookup (fs w) (Path output_dir) = None
         /\ fs_lookup (fs w) (parent (Path output_dir)) = Some Dir
         /\ mkdir_denied w (Path output_dir) = None
         /\ w1 = created w (Path output_dir)) ->
     fs_lookup (fs w1) (Path output_dir) = Some Dir
     /\ match to_json lib rows (os_path_join output_dir (py "qa_pairs.json"))
              (fs w1) with
        | inr files =>
            save_qa_pairs lib rows output_dir w
            = (inr tt, log (written w1 files) SAVED_LINE)
        | inl e =>
            (printable (save_failure_line
                          (os_path_join output_dir (py "qa_pairs.json")) e) ->
             save_qa_pairs lib rows output_dir w
             = (inr tt, log w1 (save_failure_line
                                  (os_path_join output_dir (py "qa_pairs.json")) e)))
            /\ (forall e',
                  utf8_encode (save_failure_line
                                 (os_path_join output_dir (py "qa_pairs.json")) e)
                  = inl e' ->
                  save_qa_pairs lib rows output_dir w = (inl e', w1))
        end)
  /\ (forall d,
        fs_lookup (fs w) (Path output_dir) = Some (File d) ->
        exists e, save_qa_pairs lib rows output_dir w = (inl e, w)
                  /\ class e = FileExistsError)
  /\ (fs_lookup (fs w) (Path output_dir) = None ->
      fs_lookup (fs w) (parent (Path output_dir)) = None ->
      exists e, save_qa_pairs lib rows output_dir w = (inl e, w)
                /\ class e = FileNotFoundError)
  /\ (forall d,
        fs_lookup (fs w) (Path output_dir) = None ->
        fs_lookup (fs w) (parent (Path output_dir)) = Some (File d) ->
        exists e, save_qa_pairs lib rows output_dir w = (inl e, w)
                  /\ class e = NotADirectoryError)
  /\ (forall e,
        fs_lookup (fs w) (Path output_dir) = None ->
        fs_lookup (fs w) (parent (Path output_dir)) = Some Dir ->
        mkdir_denied w (Path output_dir) = Some e ->
        save_qa_pairs lib rows output_dir w = (inl e, w)).
Proof.
  split; [|split; [|split; [|split]]].
  - intros w1 H.
    assert (M : mkdir_exist_ok (Path output_dir) w = (inr tt, w1)
                /\ fs_lookup (fs w1) (Path output_dir) = Some Dir).
    { destruct H as [[H ->]|(H1 & H2 & H3 & ->)].
      - split; [now apply mkdir_present | exact H].
      - split; [now apply mkdir_absent | now apply created_is_directory]. }
    destruct M as [M D]. split; [exact D|].
    pose proof (save_after_mkdir lib rows output_dir w w1 M) as S.
    destruct (to_json lib rows _ (fs w1)) as [e|files]; [|exact S].
    split.
    + intros Hp. now rewrite S, (print_ok _ w1 Hp).
    + intros e' He. now rewrite S, (print_refused _ w1 e' He).
  - intros d H. eexists. split.
    + apply save_mkdir_raises. unfold mkdir_exist_ok. rewrite H. reflexivity.
    + reflexivity.
  - intros H1 H2. eexists. split.
    + apply save_mkdir_raises. unfold mkdir_exist_ok. rewrite H1, H2. reflexivity.
    + reflexivity.
  - intros d H1 H2. eexists. split.
    + apply save_mkdir_raises. unfold mkdir_exist_ok. rewrite H1, H2. reflexivity.
    + reflexivity.
  - intros e H1 H2 H3. apply save_mkdir_raises. now apply mkdir_refused.
Qed.

Lemma save_contains_write_failures_witness :
  save_qa_pairs Scenario.lib_disk_full [] OUTPUT_PATH Scenario.world
  = (inr tt,
     log (created Scenario.world (Path OUTPUT_PATH))
         (py "Failed to save QA pairs to C:/Users/cym/Documents/output_data/qa_pairs.json: No space left on device"))
  /\ save_qa_pairs Scenario.lib [] OUTPUT_PATH Scenario.world_read_only
     = (inl Scenario.READ_ONLY, Scenario.world_read_only).
Proof.
  split.
  - apply (proj1 (proj2 (proj1 (save_contains_write_failures
                                  Scenario.lib_disk_full [] OUTPUT_PATH Scenario.world)
                               (created Scenario.world (Path OUTPUT_PATH))
                               ltac:(right; repeat split; vm_compute; reflexivity)))).
    eexists. vm_compute. reflexivity.
  - apply (proj2 (proj2 (proj2 (proj2 (save_contains_write_failures
             Scenario.lib [] OUTPUT_PATH Scenario.world_read_only))))
             Scenario.READ_ONLY); vm_compute; reflexivity.
Defined.
(** * Further properties *)

(** ** The response scan *)

(** X1: a completion in which no line begins with [Question:], or in
    which no line is an answer line, adds no record: an answer is kept
    only after a question, a question only with an answer. *)
Theorem no_marker_no_record
    (func_code func_name : str) (f : CodeFile) (response : str)
    (qa_pairs : list QARecord) :
  Forall (fun l => question_line l = false) (split LF response)
  \/ Forall (fun l => answer_line l = false) (split LF response) ->
  scan_response func_code func_name f response qa_pairs = qa_pairs.
Proof.
  unfold scan_response. intros [H|H].
  - now rewrite fold_without_questions.
  - now apply fold_without_answers.
Qed.

Lemma no_marker_no_record_witness :
  scan_response Scenario.ADD_SOURCE (py "add") Scenario.add_file
                (py "Answer: X" ++ [LF] ++ py "The function adds.") []
  = []
  /\ scan_response Scenario.ADD_SOURCE (py "add") Scenario.add_file
                   (py "Question: A" ++ [LF] ++ py "It adds.") []
     = [].
Proof.
  split.
  - apply no_marker_no_record. left. repeat constructor.
  - apply no_marker_no_record. right. repeat constructor.
Defined.

(** X2: the scan adds at most one record per question line and at most
    one per answer line of the completion. *)
Theorem records_bounded_by_marker_lines
    (func_code func_name : str) (f : CodeFile) (response : str)
    (qa_pairs : list QARecord) :
  List.length (scan_response func_code func_name f response qa_pairs)
  <= List.length qa_pairs
     + List.length (filter question_line (split LF response))
  /\ List.length (scan_response func_code func_name f response qa_pairs)
     <= List.length qa_pairs
        + List.length (filter answer_line (split LF response)).
Proof.
  unfold scan_response.
  destruct (fold_counts func_code func_name f (split LF response) None qa_pairs)
    as [H1 H2].
  unfold waiting at 2 in H1. cbn [truthy] in H1. split; [lia | exact H2].
Qed.

(** X3: a completion made of question and answer lines in turn, with
    bodies of one line that hold no marker of their kind and questions
    that are not blank, gives one record per pair, in order: the
    question and the answer of the record are the two bodies, stripped,
    and the record carries the snippet, path and repository of the
    unit. *)
Theorem alternating_lines_give_all_pairs
    (func_code func_name : str) (f : CodeFile) (pairs : list (str * str))
    (qa_pairs : list QARecord) :
  Forall plain_pair pairs ->
  exists new,
    scan_response func_code func_name f (join [LF] (qa_lines pairs)) qa_pairs
    = qa_pairs ++ new
    /\ map (fun r => (question r, answer r)) new
       = map (fun qa => (strip (fst qa), strip (snd qa))) pairs
    /\ Forall (fun r => code_snippet r = func_code
                        /\ file r = path f
                        /\ qa_repo r = repo f) new.
Proof.
  intros H.
  exists (map (fun qa => mk_record func_code func_name f
                           (strip (fst qa)) (strip (snd qa))) pairs).
  split; [|split].
  - destruct pairs as [|qa rest].
    + cbn. now rewrite app_nil_r.
    + unfold scan_response. rewrite split_join.
      * now rewrite fold_plain_pairs.
      * discriminate.
      * clear qa_pairs. induction H as [|qa' rest' Hqa _ IH]; [constructor|].
        destruct Hqa as (_ & H1 & _ & _ & H2).
        cbn [qa_lines flat_map app].
        constructor; [apply (marker_has_no_line_feed _ H1)|].
        constructor; [apply (marker_has_no_line_feed _ H2) | exact IH].
  - rewrite map_map. reflexivity.
  - apply Forall_forall. intros r Hr. apply in_map_iff in Hr as (qa & <- & _).
    now repeat split.
Qed.

Lemma alternating_lines_give_all_pairs_witness :
  exists new,
    scan_response Scenario.ADD_SOURCE (py "add") Scenario.add_file
                  Scenario.BACKEND_TEXT []
    = [] ++ new
    /\ map (fun r => (question r, answer r)) new
       = [ (py "What does it do?", py "It adds two numbers.");
           (py "What are its inputs?", py "Two numbers.") ]
    /\ Forall (fun r => code_snippet r = Scenario.ADD_SOURCE
                        /\ file r = py "add.py"
                        /\ qa_repo r = py "flask") new.
Proof.
  apply (alternating_lines_give_all_pairs
           Scenario.ADD_SOURCE (py "add") Scenario.add_file
           [ (py " What does it do?", py " It adds two numbers.");
             (py " What are its inputs?", py " Two numbers.") ] []).
  repeat constructor; vm_compute; intuition discriminate.
Defined.

(** X4: every record the scan adds has a question that is not empty,
    question and answer without white space around them, and the
    snippet, path and repository of the unit it was made for; the
    records that were in the list stay in front. *)
Theorem scan_records_are_well_formed
    (func_code func_name : str) (f : CodeFile) (response : str)
    (qa_pairs : list QARecord) :
  exists new,
    scan_response func_code func_name f response qa_pairs = qa_pairs ++ new
    /\ Forall (record_of_unit func_code f) new.
Proof.
  unfold scan_response. apply fold_records. discriminate.
Qed.

(** ** Lists of files *)

(** X5: the records of a list of files followed by another are the
    records of the first list followed by those of the second, the second
    run starting in the world the first one left. *)
Theorem records_of_concatenated_inputs
    (G : namespace) (parser : Parser) (model : Llama)
    (first_files more_files : list CodeFile) (w : World) :
  generate_qa_pairs G parser model (first_files ++ more_files) w
  = match generate_qa_pairs G parser model first_files w with
    | (inl e, w1) => (inl e, w1)
    | (inr qs1, w1) =>
        match generate_qa_pairs G parser model more_files w1 with
        | (inl e, w2) => (inl e, w2)
        | (inr qs2, w2) => (inr (qs1 ++ qs2), w2)
        end
    end.
Proof. apply generate_app. Qed.

(** X6: every record [generate_qa_pairs] returns was made for one of the
    files it was given and for a node the query captured in the tree of
    that file: its path and repository are those of the file, its
    snippet is the slice of the file's content at the range of that node,
    which is the [identifier] under the field [name] of a function
    definition of the tree; its question is not empty and its texts are
    stripped. *)
Theorem records_belong_to_input_files
    (G : namespace) (parser : Parser) (model : Llama)
    (files : list CodeFile) (w w' : World) (qs : list QARecord) :
  generate_qa_pairs G parser model files w = (inr qs, w') ->
  Forall (fun r =>
            exists f tree n c d,
              In f files
              /\ syntax_tree parser f = inr tree
              /\ In (n, c) (captures FUNC_QUERY (root_node tree))
              /\ In d (descendants (root_node tree))
              /\ type d = py "function_definition"
              /\ In (Some (py "name"), n) (children d)
              /\ type n = py "identifier"
              /\ record_of_unit (snippet f n) f r) qs.
Proof.
  unfold generate_qa_pairs, returning_list.
  destruct (file_loop_records G parser model files (w, [])) as (new & E & F).
  destruct (for_each files (file_body G parser model) (w, []))
    as [[e|u] [w1 l]]; [discriminate|].
  intros [= <- <-]. cbn [snd app] in E. subst l.
  eapply Forall_impl; [|exact F].
  intros r (f & Hf & tree & n & c & Ht & Hc & Hr).
  destruct (func_query_captures_names _ n c Hc) as (Hn & _ & d & Hd & Hfd & Hch).
  exists f, tree, n, c, d. repeat (split; [assumption|]). exact Hr.
Qed.

Lemma records_belong_to_input_files_witness :
  Forall (fun r =>
            exists f tree n c d,
              In f [Scenario.add_file]
              /\ syntax_tree Scenario.parser f = inr tree
              /\ In (n, c) (captures FUNC_QUERY (root_node tree))
              /\ In d (descendants (root_node tree))
              /\ type d = py "function_definition"
              /\ In (Some (py "name"), n) (children d)
              /\ type n = py "identifier"
              /\ record_of_unit (snippet f n) f r)
         Scenario.patched_records.
Proof.
  apply (records_belong_to_input_files
           Scenario.patched_globals Scenario.parser Scenario.backend
           [Scenario.add_file] Scenario.world
           (snd (generate_qa_pairs Scenario.patched_globals Scenario.parser
                   Scenario.backend [Scenario.add_file] Scenario.world))).
  vm_compute. reflexivity.
Defined.

(** X7: with the globals of the module as they are written,
    [generate_qa_pairs] emits no record, for every parser, model and
    list of files: it ends with the empty list or with an exception of
    [print], sends nothing to the model and leaves the file system
    alone; when the error line of every file can be printed it returns
    the empty list after printing one line per file; so the list [main]
    hands to [save_qa_pairs] is always empty. *)
Theorem shipped_pipeline_emits_nothing
    (lib : Libs) (parser : Parser) (model : Llama) (files : list CodeFile)
    (w : World) :
  (Forall printable (map (shipped_line parser) files) ->
   generate_qa_pairs module_globals parser model files w
   = (inr [], logged w (map (shipped_line parser) files)))
  /\ (exists r w',
        generate_qa_pairs module_globals parser model files w = (r, w')
        /\ (r = inr [] \/ exists e, r = inl e)
        /\ calls w' = calls w
        /\ fs w' = fs w)
  /\ (fst (collect lib w) = inr [] \/ exists e, fst (collect lib w) = inl e).
Proof.
  assert (G : forall p m fl v,
             exists r w',
               generate_qa_pairs module_globals p m fl v = (r, w')
               /\ (r = inr [] \/ exists e, r = inl e)
               /\ calls w' = calls v
               /\ fs w' = fs v).
  { intros p m fl v. unfold generate_qa_pairs, returning_list.
    destruct (shipped_loop_keeps p m fl v []) as (r & w' & E & C & F).
    rewrite E. destruct r as [e|u].
    - exists (inl e), w'. split; [reflexivity|]. split; [right; now exists e|].
      now split.
    - exists (inr []), w'. split; [reflexivity|]. split; [now left | now split]. }
  split; [|split].
  - intros H. unfold generate_qa_pairs, returning_list.
    now rewrite shipped_loop_printable.
  - apply G.
  - unfold collect, bind.
    destruct (initialize_model lib MODEL_PATH 2048 w) as [[e|m] w1];
      [right; now exists e|].
    destruct (initialize_parser lib w1) as [[e|p] w2]; [right; now exists e|].
    destruct (extract_code REPO_PATH FILE_EXTENSION w2) as [[e|fl] w3];
      [right; now exists e|].
    destruct (G p m fl w3) as (r & w' & E & [->|[e ->]] & _); rewrite E;
      [now left | right; now exists e].
Qed.

Lemma shipped_pipeline_emits_nothing_witness :
  generate_qa_pairs module_globals Scenario.parser Scenario.backend
    [Scenario.add_file] Scenario.world
  = (inr [],
     logged Scenario.world
       [py "Error processing file add.py: name 'PY_LANGUAGE' is not defined"]).
Proof.
  apply (proj1 (shipped_pipeline_emits_nothing
                  Scenario.lib Scenario.parser Scenario.backend
                  [Scenario.add_file] Scenario.world)).
  repeat constructor. eexists. vm_compute. reflexivity.
Defined.

(** ** Requests to the model *)

Lemma ask_world (model : Llama) (func_code : str) (w : World) :
  calls (snd (ask model (make_prompt func_code) w)) = calls w ++ [request func_code]
  /\ fs (snd (ask model (make_prompt func_code) w)) = fs w.
Proof.
  unfold ask, bind, call, pure_call, ret, request. cbn [fst snd].
  destruct (model (calls w) _) as [e|c]; [now split|].
  destruct (first (choices c)); now split.
Qed.

Lemma unit_body_requests (model : Llama) (f : CodeFile) (tree : Tree)
    (cap : Node * str) (st : World * list QARecord) :
  decodes tree cap ->
  failures_print model f tree [cap] ->
  exists st',
    unit_body model f tree cap st = (inr tt, st')
    /\ calls (fst st') = calls (fst st) ++ [request (snippet f (fst cap))]
    /\ fs (fst st') = fs (fst st).
Proof.
  intros [fn Hfn] Hp. destruct st as [w acc].
  pose proof (unit_body_cases model f tree cap w acc) as H. rewrite Hfn in H.
  destruct (ask_world model (snippet f (fst cap)) w) as [Hc Hf].
  pose proof (Hp cap fn w) as Hp'.
  destruct (ask model _ w) as [[e|r] w']; cbn [snd] in Hc, Hf; rewrite H.
  - rewrite (print_ok _ w' (Hp' e (or_introl eq_refl) Hfn eq_refl)).
    eexists. split; [reflexivity|]. cbn [kept fst snd log calls fs with_stdout].
    now split.
  - eexists. split; [reflexivity|]. cbn [fst]. now split.
Qed.

Lemma failures_print_cons (model : Llama) (f : CodeFile) (tree : Tree)
    (cap : Node * str) (caps : list (Node * str)) :
  failures_print model f tree (cap :: caps) ->
  failures_print model f tree [cap] /\ failures_print model f tree caps.
Proof.
  intros H. split; intros c fn w e Hin; apply H.
  - destruct Hin as [<-|[]]. now left.
  - now right.
Qed.

Lemma failures_print_app (model : Llama) (f : CodeFile) (tree : Tree)
    (caps more : list (Node * str)) :
  failures_print model f tree (caps ++ more) -> failures_print model f tree caps.
Proof. intros H c fn w e Hin. apply H. apply in_or_app. now left. Qed.

Lemma unit_loop_requests (model : Llama) (f : CodeFile) (tree : Tree)
    (caps : list (Node * str)) (st : World * list QARecord) :
  Forall (decodes tree) caps ->
  failures_print model f tree caps ->
  exists st',
    for_each caps (unit_body model f tree) st = (inr tt, st')
    /\ calls (fst st')
       = calls (fst st) ++ map (fun cap => request (snippet f (fst cap))) caps
    /\ fs (fst st') = fs (fst st).
Proof.
  intros H; revert st; induction H as [|cap caps Hcap _ IH]; intros st Hp;
    cbn [for_each map].
  - exists st. now rewrite app_nil_r.
  - apply failures_print_cons in Hp as [Hp1 Hp2]. unfold bind.
    destruct (unit_body_requests model f tree cap st Hcap Hp1) as (st1 & E1 & C1 & F1).
    rewrite E1. destruct (IH st1 Hp2) as (st2 & E2 & C2 & F2).
    exists st2. split; [exact E2|]. split.
    + rewrite C2, C1, <- app_assoc. reflexivity.
    + now rewrite F2.
Qed.

(** X8: when the text of every captured node decodes and the line for a
    failed request can be printed, the loop over the captures of a file
    ends normally and sends exactly one request per capture, in order,
    each with the prompt for that capture's slice, 2048 as [max_tokens]
    and 0.7 as [temperature], whether the model answers or fails; the
    file system is not touched. *)
Theorem one_request_per_unit
    (model : Llama) (f : CodeFile) (tree : Tree) (caps : list (Node * str))
    (st : World * list QARecord) :
  Forall (decodes tree) caps ->
  failures_print model f tree caps ->
  exists st',
    for_each caps (unit_body model f tree) st = (inr tt, st')
    /\ calls (fst st')
       = calls (fst st) ++ map (fun cap => request (snippet f (fst cap))) caps
    /\ fs (fst st') = fs (fst st).
Proof. apply unit_loop_requests. Qed.

Lemma one_request_per_unit_witness :
  exists st',
    for_each (captures FUNC_QUERY Scenario.add_tree)
             (unit_body Scenario.backend_down Scenario.add_file
                {| source := [100; 101; 102; 32; 97; 100; 100]%N;
                   root_node := Scenario.add_tree |})
             (Scenario.world, [])
    = (inr tt, st')
    /\ calls (fst st') = [] ++ [request (py "add")]
    /\ fs (fst st') = Scenario.base_files.
Proof.
  apply (one_request_per_unit
           Scenario.backend_down Scenario.add_file
           {| source := [100; 101; 102; 32; 97; 100; 100]%N;
              root_node := Scenario.add_tree |}
           (captures FUNC_QUERY Scenario.add_tree) (Scenario.world, [])).
  - repeat constructor. exists (py "add"). vm_compute. reflexivity.
  - intros cap fn w e [<-|[]] Hfn Hask.
    injection Hfn as <-. injection Hask as <-.
    eexists. vm_compute. reflexivity.
Defined.

(** ** Byte offsets and character indices *)

Lemma utf8_encode_ascii (s : str) : ascii s -> utf8_encode s = inr s.
Proof.
  induction 1 as [|c s Hc _ IH]; [reflexivity|].
  cbn [utf8_encode]. unfold utf8_char.
  apply N.ltb_lt in Hc. now rewrite Hc, IH.
Qed.

Lemma utf8_decode_ascii (bs : bytes) : ascii bs -> utf8_decode bs = inr bs.
Proof.
  induction 1 as [|b bs Hb _ IH]; [reflexivity|].
  cbn [utf8_decode]. apply N.ltb_lt in Hb. now rewrite Hb, IH.
Qed.

Lemma ascii_skipn (s : list N) (a : nat) : ascii s -> ascii (skipn a s).
Proof.
  revert s; induction a as [|a IH]; intros s H; [exact H|].
  destruct H as [|c s Hc Hs]; [constructor | now apply IH].
Qed.

Lemma ascii_firstn (s : list N) (a : nat) : ascii s -> ascii (firstn a s).
Proof.
  revert s; induction a as [|a IH]; intros s H; [constructor|].
  destruct H as [|c s Hc Hs]; [constructor|].
  cbn [firstn]. constructor; [exact Hc | now apply IH].
Qed.

Lemma ascii_slice (s : list N) (a b : nat) : ascii s -> ascii (slice s a b).
Proof. intros H. unfold slice. now apply ascii_firstn, ascii_skipn. Qed.

Lemma parse_keeps_source (parser : Parser) (src : bytes) (tree : Tree) :
  parse parser src = inr tree -> source tree = src.
Proof.
  unfold parse. destruct (language parser) as [l|]; [|discriminate].
  destruct (grammar l src); [discriminate|]. now intros [= <-].
Qed.

(** X9: for a file of ASCII characters only, the name decoded from the
    bytes of a node and the snippet sliced from the text are the same
    string, whatever node the grammar reports: the text of a node always
    decodes and the byte offsets are used as they are meant. *)
Theorem ascii_name_is_snippet
    (parser : Parser) (f : CodeFile) (tree : Tree) (n : Node) :
  ascii (content f) ->
  syntax_tree parser f = inr tree ->
  utf8_decode (node_text tree n) = inr (snippet f n).
Proof.
  intros Hascii Htree. unfold syntax_tree in Htree.
  rewrite (utf8_encode_ascii _ Hascii) in Htree.
  apply parse_keeps_source in Htree.
  unfold node_text, snippet. rewrite Htree.
  apply utf8_decode_ascii. now apply ascii_slice.
Qed.

Lemma ascii_name_is_snippet_witness :
  utf8_decode
    (node_text {| source := [100; 101; 102; 32; 97; 100; 100; 40; 97; 44; 32; 98;
                             41; 58; 32; 114; 101; 116; 117; 114; 110; 32; 97; 32;
                             43; 32; 98]%N;
                  root_node := Scenario.add_tree |}
               (mkNode (py "identifier") 4 7 []))
  = inr (py "add").
Proof.
  apply (ascii_name_is_snippet Scenario.parser Scenario.add_file).
  - repeat constructor.
  - vm_compute. reflexivity.
Defined.

(** ** An exception between two units *)

(** X10: when the text of a captured node does not decode, the exception
    is caught by the handler of the file: the units before it have run
    and keep their records and requests, one line with the path of the
    file and the error is printed, and the units after it are not
    processed (the lines of the handlers being printable). *)
Theorem decode_failure_skips_rest_of_file
    (G : namespace) (parser : Parser) (model : Llama) (f : CodeFile)
    (tree : Tree) (before after : list (Node * str)) (cap : Node * str)
    (e : exn) (st : World * list QARecord) :
  syntax_tree parser f = inr tree ->
  find_units G tree = inr (before ++ cap :: after) ->
  Forall (decodes tree) before ->
  utf8_decode (node_text tree (fst cap)) = inl e ->
  failures_print model f tree before ->
  printable (file_failure_line f e) ->
  file_body G parser model f st
  = (inr tt,
     (log (fst (snd (for_each before (unit_body model f tree) st)))
          (file_failure_line f e),
      snd (snd (for_each before (unit_body model f tree) st)))).
Proof.
  intros Htree Hfound Hbefore Hcap Hfp Hp.
  pose proof (file_body_cases G parser model f st) as H.
  rewrite Htree, Hfound in H. rewrite for_each_app in H.
  destruct (unit_loop_requests model f tree before st Hbefore Hfp) as (st1 & E1 & _).
  rewrite E1 in H |- *. cbn [for_each] in H. unfold bind in H.
  destruct st1 as [w1 acc1].
  pose proof (unit_body_cases model f tree cap w1 acc1) as C. rewrite Hcap in C.
  rewrite C in H. cbn [fst snd] in H |- *.
  now rewrite H, (print_ok _ w1 Hp).
Qed.

Lemma decode_failure_skips_rest_of_file_witness :
  file_body Skewed.globals Skewed.parser Scenario.backend Scenario.accent_file
            (Scenario.world, [])
  = (inr tt,
     (log (snd (ask Scenario.backend (make_prompt (py "(")) Scenario.world))
          (file_failure_line Scenario.accent_file invalid_utf8),
      [ mk_record (py "(") (py "f") Scenario.accent_file
          (py "What does it do?") (py "It adds two numbers.");
        mk_record (py "(") (py "f") Scenario.accent_file
          (py "What are its inputs?") (py "Two numbers.") ])).
Proof.
  apply (decode_failure_skips_rest_of_file
           Skewed.globals Skewed.parser Scenario.backend Scenario.accent_file
           Skewed.tree
           [ (mkNode (py "identifier") 11 12 [], py "func_name") ]
           [ (mkNode (py "identifier") 16 20 [], py "func_name") ]
           (mkNode (py "identifier") 1 2 [], py "func_name")
           invalid_utf8 (Scenario.world, [])).
  - vm_compute. reflexivity.
  - vm_compute. reflexivity.
  - repeat constructor. exists (py "f"). vm_compute. reflexivity.
  - vm_compute. reflexivity.
  - intros cap fn w e Hin Hfn Hask. discriminate Hask.
  - eexists. vm_compute. reflexivity.
Defined.

(** ** What [extract_code] returns *)

Lemma printable_extracted_prefix :
  printable (py "Extracted file: [USER_HOME]/Documents/flask/").
Proof. eexists. vm_compute. reflexivity. Qed.

(** A path that cannot be printed after [Extracted file: ] cannot be
    printed in the line of the handler either. *)
Lemma read_failure_line_unprintable (rel : fspath) (e e' : exn) :
  utf8_encode (py "Extracted file: [USER_HOME]/Documents/flask/" ++ Path_str rel)
  = inl e ->
  ~ printable (read_failure_line rel e').
Proof.
  intros He Hp. unfold read_failure_line in Hp.
  apply printable_app_inv in Hp as [_ Hp].
  apply printable_app_inv in Hp as [Hp _].
  destruct (printable_app _ _ printable_extracted_prefix Hp) as [bs Hbs].
  congruence.
Qed.

Lemma read_body_returns (base p rel : fspath) (w : World) (acc : list CodeFile)
    (st' : World * list CodeFile) :
  strip_prefix base p = Some rel ->
  read_body base p (w, acc) = (inr tt, st') ->
  st' = (log w (extract_line (fs w) base p), acc ++ extracted (fs w) base p).
Proof.
  intros Hrel. rewrite (read_body_cases base p rel w acc Hrel).
  unfold extract_line, extracted. rewrite Hrel.
  destruct (read_result (fs w) p) as [e|code].
  - destruct (print_outcome (read_failure_line rel e) w) as [[_ E]|(e' & _ & E)];
      rewrite E; unfold kept; cbn [fst snd]; [|discriminate].
    intros [= <-]. now rewrite app_nil_r.
  - destruct (print_outcome
                (py "Extracted file: [USER_HOME]/Documents/flask/" ++ Path_str rel) w)
      as [[_ E]|(e' & He & E)]; rewrite E; [now intros [= <-]|].
    destruct (print_outcome (read_failure_line rel e') w) as [[Hp _]|(e2 & _ & E2)].
    + now destruct (read_failure_line_unprintable rel e' e' He).
    + rewrite E2. unfold kept; cbn [fst snd]. discriminate.
Qed.

Lemma read_loop_returns (base : fspath) (found : list fspath) (w : World)
    (acc : list CodeFile) (st' : World * list CodeFile) :
  Forall (fun p => exists rel, strip_prefix base p = Some rel) found ->
  for_each found (read_body base) (w, acc) = (inr tt, st') ->
  st' = (logged w (map (extract_line (fs w) base) found),
         acc ++ flat_map (extracted (fs w) base) found).
Proof.
  intros H; revert w acc; induction H as [|p found [rel Hrel] _ IH]; intros w acc;
    cbn [for_each map flat_map].
  - unfold ret. intros [= <-]. now rewrite logged_nil, app_nil_r.
  - unfold bind.
    destruct (read_body base p (w, acc)) as [[e|u] st1] eqn:E; [discriminate|].
    destruct u. apply (read_body_returns base p rel w acc st1 Hrel) in E. subst st1.
    intros Hrest. apply IH in Hrest. subst st'.
    cbn [log fs with_stdout]. rewrite logged_log, <- app_assoc. reflexivity.
Qed.

Lemma extract_code_returned
    (repo_path file_extension : str) (w w' : World) (files : list CodeFile) :
  extract_code repo_path file_extension w = (inr files, w') ->
  files = flat_map (extracted (fs w) (Path repo_path))
                   (matches w (Path repo_path) (py "*" ++ file_extension))
  /\ w' = logged w (map (extract_line (fs w) (Path repo_path))
                        (matches w (Path repo_path) (py "*" ++ file_extension))).
Proof.
  intros H.
  destruct (fs_lookup (fs w) (Path repo_path)) as [present|] eqn:E.
  - rewrite extract_code_found in H by (rewrite E; discriminate).
    destruct (for_each (matches w (Path repo_path) (py "*" ++ file_extension))
                (read_body (Path repo_path)) (w, [])) as [[e|u] [w1 l]] eqn:L;
      [discriminate|].
    destruct u. apply read_loop_returns in L.
    + injection L as -> ->. injection H as <- <-. now split.
    + apply Forall_forall. intros p Hin.
      apply matches_below in Hin as (rel & Hrel & _). now exists rel.
  - rewrite extract_code_missing in H by exact E. discriminate.
Qed.

(** X11: whenever [extract_code] returns, the list holds one dictionary
    for every entry below the repository path that the pattern [*] with
    the extension selects and that can be read as text, in the order of
    enumeration, with the path relative to the repository, the text of
    the file and the name of the repository directory; one line was
    printed per selected entry, read or not; the file system is as it
    was and nothing was sent to the model. *)
Theorem extract_code_returns_readable_matches
    (repo_path file_extension : str) (w w' : World) (files : list CodeFile) :
  extract_code repo_path file_extension w = (inr files, w') ->
  files = flat_map (extracted (fs w) (Path repo_path))
                   (matches w (Path repo_path) (py "*" ++ file_extension))
  /\ w' = logged w (map (extract_line (fs w) (Path repo_path))
                        (matches w (Path repo_path) (py "*" ++ file_extension))).
Proof. apply extract_code_returned. Qed.

Lemma extract_code_returns_readable_matches_witness :
  [ Scenario.add_file ]
  = flat_map (extracted (fs Scenario.world) (Path REPO_PATH))
             (matches Scenario.world (Path REPO_PATH) (py "*" ++ FILE_EXTENSION))
  /\ logged Scenario.world [ py "Extracted file: [USER_HOME]/Documents/flask/add.py" ]
     = logged Scenario.world
         (map (extract_line (fs Scenario.world) (Path REPO_PATH))
              (matches Scenario.world (Path REPO_PATH) (py "*" ++ FILE_EXTENSION))).
Proof.
  apply (extract_code_returns_readable_matches
           REPO_PATH FILE_EXTENSION Scenario.world).
  vm_compute. reflexivity.
Defined.

(** ** How [main] ends *)

(** X12: when the records are collected and the output directory is
    there, a failure of the write does not change how [main] ends: it
    prints the failure with the path of the target file, then the line of
    completion, and returns normally.  When the directory cannot be
    made, [main] prints the error and raises it.  (The lines with the
    message of the error being printable.) *)
Theorem main_completes_after_failed_write
    (lib : Libs) (w w1 w2 : World) (qs : list QARecord) (e : exn) :
  collect lib (log w START) = (inr qs, w1) ->
  (mkdir_exist_ok (Path OUTPUT_PATH) w1 = (inr tt, w2) ->
   to_json lib qs TARGET (fs w2) = inl e ->
   printable (save_failure_line TARGET e) ->
   main lib w = (inr tt, log (log w2 (save_failure_line TARGET e)) COMPLETED))
  /\ (mkdir_exist_ok (Path OUTPUT_PATH) w1 = (inl e, w2) ->
      printable (py "Error in main execution: " ++ message e) ->
      main lib w = (inl e, log w2 (py "Error in main execution: " ++ message e))).
Proof.
  intros Hc. rewrite main_cases, Hc. split.
  - intros Hm Hw Hp. rewrite (save_after_mkdir lib qs OUTPUT_PATH w1 w2 Hm).
    fold TARGET. now rewrite Hw, (print_ok _ w2 Hp).
  - intros Hm Hp. rewrite (save_mkdir_raises lib qs OUTPUT_PATH w1 w2 e Hm).
    unfold raised_again, main_error_line. now rewrite (print_ok _ w2 Hp).
Qed.

Lemma main_completes_after_failed_write_witness :
  main Scenario.lib_disk_full Scenario.world
  = (inr tt,
     log (log (created (snd (collect Scenario.lib_disk_full
                               (log Scenario.world START)))
                       (Path OUTPUT_PATH))
              (save_failure_line TARGET
                 {| class := OSError; message := py "No space left on device" |}))
         COMPLETED).
Proof.
  apply (proj1 (main_completes_after_failed_write
                  Scenario.lib_disk_full Scenario.world
                  (snd (collect Scenario.lib_disk_full (log Scenario.world START)))
                  (created (snd (collect Scenario.lib_disk_full
                                   (log Scenario.world START)))
                           (Path OUTPUT_PATH))
                  []
                  {| class := OSError; message := py "No space left on device" |}
                  ltac:(vm_compute; reflexivity))).
  - vm_compute. reflexivity.
  - vm_compute. reflexivity.
  - eexists. vm_compute. reflexivity.
Defined.

(** X13: a failure of the libraries at the start ends [main] before any
    file is read: the error of loading the model is raised as it is, and
    an error of any of the three calls that set up the parser, making it,
    getting the grammar or setting the language, is raised as a
    [RuntimeError] whose message is [Failed to initialize parser: ]
    followed by the message of the cause; in both cases [main] prints the
    error, when it can be printed, and nothing else after its first
    line. *)
Theorem library_failures_at_start_are_fatal (lib : Libs) (w : World) (e : exn) :
  fs_lookup (fs w) (Path MODEL_PATH) <> None ->
  (Llama_init lib MODEL_PATH 2048 (fs w) = inl e ->
   printable (main_error_line e) ->
   main lib w = (inl e, stopped w e))
  /\ (forall model,
        Llama_init lib MODEL_PATH 2048 (fs w) = inr model ->
        Parser_new lib = inl e
        \/ (exists blank, Parser_new lib = inr blank /\ python_language lib = inl e)
        \/ (exists blank python,
              Parser_new lib = inr blank
              /\ python_language lib = inr python
              /\ set_language lib blank python = inl e) ->
        printable (main_error_line (PARSER_FAILED e)) ->
        main lib w = (inl (PARSER_FAILED e), stopped w (PARSER_FAILED e))).
Proof.
  intros Hmodel. split.
  - intros Hload Hp. apply main_stops; [|exact Hp]. unfold collect, bind.
    rewrite initialize_model_present by (discriminate || exact Hmodel).
    cbn [log fs with_stdout]. now rewrite Hload.
  - intros model Hload Hsetup Hp. apply main_stops; [|exact Hp].
    unfold collect, bind.
    rewrite initialize_model_present by (discriminate || exact Hmodel).
    cbn [log fs with_stdout]. rewrite Hload, initialize_parser_cases.
    assert (S : parser_setup lib = inl e).
    { unfold parser_setup.
      destruct Hsetup as [H|[(b & H1 & H2)|(b & l & H1 & H2 & H3)]].
      - now rewrite H.
      - now rewrite H1, H2.
      - now rewrite H1, H2, H3. }
    now rewrite S.
Qed.

Lemma library_failures_at_start_are_fatal_witness :
  main Faulty.lib_bad_model Scenario.world
  = (inl Faulty.BAD_MODEL, stopped Scenario.world Faulty.BAD_MODEL)
  /\ main Faulty.lib_no_parser Scenario.world
     = (inl (PARSER_FAILED Faulty.NO_PARSER),
        stopped Scenario.world (PARSER_FAILED Faulty.NO_PARSER))
  /\ main Faulty.lib_no_grammar Scenario.world
     = (inl (PARSER_FAILED Faulty.NO_GRAMMAR),
        stopped Scenario.world (PARSER_FAILED Faulty.NO_GRAMMAR))
  /\ main Faulty.lib_bad_binding Scenario.world
     = (inl (PARSER_FAILED Faulty.NOT_A_LANGUAGE),
        stopped Scenario.world (PARSER_FAILED Faulty.NOT_A_LANGUAGE)).
Proof.
  split; [|split; [|split]].
  - apply (proj1 (library_failures_at_start_are_fatal
                    Faulty.lib_bad_model Scenario.world Faulty.BAD_MODEL
                    ltac:(vm_compute; discriminate))).
    + reflexivity.
    + eexists. vm_compute. reflexivity.
  - apply (proj2 (library_failures_at_start_are_fatal
                    Faulty.lib_no_parser Scenario.world Faulty.NO_PARSER
                    ltac:(vm_compute; discriminate))
                 Scenario.backend).
    + reflexivity.
    + left. reflexivity.
    + eexists. vm_compute. reflexivity.
  - apply (proj2 (library_failures_at_start_are_fatal
                    Faulty.lib_no_grammar Scenario.world Faulty.NO_GRAMMAR
                    ltac:(vm_compute; discriminate))
                 Scenario.backend).
    + reflexivity.
    + right. left. exists blank_parser. now split.
    + eexists. vm_compute. reflexivity.
  - apply (proj2 (library_failures_at_start_are_fatal
                    Faulty.lib_bad_binding Scenario.world Faulty.NOT_A_LANGUAGE
                    ltac:(vm_compute; discriminate))
                 Scenario.backend).
    + reflexivity.
    + right. right. exists blank_parser, Scenario.python. now repeat split.
    + eexists. vm_compute. reflexivity.
Defined.

(** ** Lines that are no marker lines *)

Lemma fold_skips_other_line (func_code func_name : str) (f : CodeFile)
    (before after : list str) (x : str) (st : scan_state) :
  question_line x = false ->
  answer_line x = false ->
  fold_left (scan_line func_code func_name f) (before ++ x :: after) st
  = fold_left (scan_line func_code func_name f) (before ++ after) st.
Proof.
  intros HQ HA. unfold question_line in HQ. unfold answer_line in HA.
  rewrite HQ in HA. cbn [negb andb] in HA.
  rewrite !fold_left_app. cbn [fold_left].
  now rewrite (scan_line_other _ _ _ _ x HQ HA).
Qed.

(** X14: a line that begins with neither marker can be taken out of the
    completion without changing the records: text between the marker
    lines, such as the further lines of a long answer, is not used. *)
Theorem other_lines_are_ignored
    (func_code func_name : str) (f : CodeFile)
    (before after : list str) (x : str) (qa_pairs : list QARecord) :
  Forall (fun l => ~ In LF l) (before ++ x :: after) ->
  question_line x = false ->
  answer_line x = false ->
  scan_response func_code func_name f (join [LF] (before ++ x :: after)) qa_pairs
  = scan_response func_code func_name f (join [LF] (before ++ after)) qa_pairs.
Proof.
  intros HLF HQ HA. unfold scan_response.
  rewrite (split_join LF (before ++ x :: after))
    by (try exact HLF; destruct before; discriminate).
  rewrite fold_skips_other_line by assumption.
  destruct (before ++ after) as [|l ls] eqn:E.
  - reflexivity.
  - rewrite split_join; [reflexivity | discriminate |].
    rewrite <- E. apply Forall_app in HLF as [H1 H2].
    apply Forall_app. split; [exact H1 | now inversion H2].
Qed.

Lemma other_lines_are_ignored_witness :
  scan_response Scenario.ADD_SOURCE (py "add") Scenario.add_file
    (py "Question: What?" ++ [LF] ++ py "Answer: It adds" ++ [LF]
       ++ py "two numbers.") []
  = scan_response Scenario.ADD_SOURCE (py "add") Scenario.add_file
      (py "Question: What?" ++ [LF] ++ py "Answer: It adds") [].
Proof.
  apply (other_lines_are_ignored
           Scenario.ADD_SOURCE (py "add") Scenario.add_file
           [py "Question: What?"; py "Answer: It adds"] [] (py "two numbers.") []).
  - repeat constructor; vm_compute; intuition discriminate.
  - reflexivity.
  - reflexivity.
Defined.

(** ** The paths [extract_code] returns *)

Lemma rev_join_last (p : str) (rel : fspath) :
  exists t, rev (join [SLASH] (p :: rel)) = rev (last (p :: rel) []) ++ t.
Proof.
  revert p; induction rel as [|q rel IH]; intros p.
  - exists []. cbn. now rewrite app_nil_r.
  - destruct (IH q) as [t Ht].
    change (join [SLASH] (p :: q :: rel)) with (p ++ [SLASH] ++ join [SLASH] (q :: rel)).
    change (last (p :: q :: rel) []) with (last (q :: rel) []).
    rewrite !rev_app_distr, Ht. exists (t ++ rev [SLASH] ++ rev p).
    now rewrite <- !app_assoc.
Qed.

Lemma endswith_Path_str (rel : fspath) (suffix : str) :
  rel <> [] ->
  endswith (name rel) suffix = true ->
  endswith (Path_str rel) suffix = true.
Proof.
  intros Hne H. destruct rel as [|p rel]; [congruence|].
  unfold endswith, name in *. unfold Path_str.
  apply startswith_prefix in H as [r Hr].
  destruct (rev_join_last p rel) as [t Ht]. rewrite Ht, Hr, <- app_assoc.
  apply startswith_app.
Qed.

(** The matcher of the scenario on the pattern of the script. *)
Lemma wild_literal (s : str) : Scenario.wild (py ".py") s = true -> s = py ".py".
Proof.
  destruct s as [|a [|b [|c [|d s]]]]; cbn; intros H; try discriminate.
  - now rewrite andb_false_r in H.
  - now rewrite !andb_false_r in H.
  - rewrite andb_true_r in H.
    apply andb_true_iff in H as [Ha H]. apply andb_true_iff in H as [Hb Hc].
    apply N.eqb_eq in Ha, Hb, Hc. now subst.
  - now rewrite !andb_false_r in H.
Qed.

Lemma wild_star (p s : str) :
  Scenario.wild (42%N :: p) s
  = Scenario.wild p s
    || match s with [] => false | _ :: s' => Scenario.wild (42%N :: p) s' end.
Proof. destruct s; reflexivity. Qed.

Lemma endswith_cons (a : codepoint) (s suffix : str) :
  endswith s suffix = true -> endswith (a :: s) suffix = true.
Proof. unfold endswith. cbn [rev]. apply startswith_app_l. Qed.

Lemma scenario_pattern_is_literal (files : filesystem) :
  selects_ending (Scenario.platform files) (py "*" ++ FILE_EXTENSION) FILE_EXTENSION.
Proof.
  intros rel. cbn [glob Scenario.platform].
  change (py "*" ++ FILE_EXTENSION) with (42%N :: py ".py").
  change FILE_EXTENSION with (py ".py").
  induction (name rel) as [|a s IH]; rewrite wild_star; intros H.
  - apply orb_true_iff in H as [H|H]; [|discriminate].
    now rewrite (wild_literal _ H).
  - apply orb_true_iff in H as [H|H].
    + now rewrite (wild_literal _ H).
    + apply endswith_cons. now apply IH.
Qed.

(** X15: every dictionary [extract_code] returns has the relative path
    of an entry the pattern selected and carries the name of the
    repository directory; where the pattern selects only names that end
    with the extension, as it does for an extension without glob
    characters on a platform that matches case, every path ends with the
    extension. *)
Theorem extracted_paths_end_with_extension
    (repo_path file_extension : str) (w w' : World) (files : list CodeFile) :
  extract_code repo_path file_extension w = (inr files, w') ->
  Forall (fun cf => exists rel,
                      rel <> []
                      /\ glob w (py "*" ++ file_extension) rel = true
                      /\ path cf = Path_str rel
                      /\ repo cf = name (Path repo_path)) files
  /\ (selects_ending w (py "*" ++ file_extension) file_extension ->
      Forall (fun cf => endswith (path cf) file_extension = true) files).
Proof.
  intros H. apply extract_code_returned in H as [-> _].
  assert (F : Forall (fun cf => exists rel,
                        rel <> []
                        /\ glob w (py "*" ++ file_extension) rel = true
                        /\ path cf = Path_str rel
                        /\ repo cf = name (Path repo_path))
                     (flat_map (extracted (fs w) (Path repo_path))
                        (matches w (Path repo_path) (py "*" ++ file_extension)))).
  { apply Forall_forall. intros cf Hcf. apply in_flat_map in Hcf as (p & Hp & Hcf).
    apply matches_below in Hp as (rel & Hrel & Hne & Hs).
    unfold extracted in Hcf. rewrite Hrel in Hcf.
    destruct (read_result (fs w) p); [destruct Hcf|].
    destruct Hcf as [<-|[]]. exists rel. now repeat split. }
  split; [exact F|].
  intros Hsel. eapply Forall_impl; [|exact F].
  intros cf (rel & Hne & Hg & -> & _).
  apply endswith_Path_str; [exact Hne | now apply Hsel].
Qed.

Lemma extracted_paths_end_with_extension_witness :
  Forall (fun cf => endswith (path cf) FILE_EXTENSION = true) [ Scenario.add_file ].
Proof.
  apply (proj2 (extracted_paths_end_with_extension
                  REPO_PATH FILE_EXTENSION Scenario.world
                  (snd (extract_code REPO_PATH FILE_EXTENSION Scenario.world))
                  [ Scenario.add_file ]
                  ltac:(vm_compute; reflexivity))).
  apply scenario_pattern_is_literal.
Defined.
